(** * SecretBid_FHE: a shallow embedding of [contracts/SecretBid_FHE.sol]

    The contract keeps three Solidity mappings keyed by the NFT identifier
    (auction records, per-auction bid arrays and an existence flag).  Each
    external function is embedded as a computation in a small
    state-and-revert monad; a transaction runs such a computation on the
    current storage and either commits the resulting storage together with
    the emitted events, or reverts.

    The FHE library ([@fhevm/solidity]) is an external dependency: its
    operations are taken as an interface ([FHE]) and the statements that
    speak about plaintexts are made relative to a valuation of handles. *)

From Stdlib Require Import NArith Lia.
From Stdlib.Strings Require Import Byte Ascii.
From stdpp Require Import base option list strings gmap.

Local Open Scope N_scope.

(** ** Solidity value types *)

(** [address], [bytes32] handles and unsigned integers are natural numbers;
    the only arithmetic of the contract, [startTime + duration], is checked
    (Solidity 0.8) and is written out in [checked_add]. *)
Definition address := N.
Definition euint32 := N.
Definition externalEuint32 := N.
Definition bytes32 := N.
Definition bytes := list byte.

Definition address0 : address := 0.
Definition uint256_max : N := 2 ^ 256 - 1.
Definition uint32_max : N := 2 ^ 32 - 1.

(** ** Storage layout *)

Record Auction := mkAuction {
  nftId : string;
  startTime : N;
  endTime : N;
  highestBidder : address;
  highestBid : euint32;
  isActive : bool
}.

Record Bid := mkBid {
  bidder : address;
  encryptedBid : euint32;
  timestamp : N
}.

Record Storage := mkStorage {
  auctions : gmap string Auction;
  bids : gmap string (list Bid);
  auctionExists : gmap string bool
}.

(** A mapping slot that was never written reads as the zero value. *)
Definition Auction_zero : Auction := mkAuction "" 0 0 address0 0 false.

Definition auction_at (s : Storage) (id : string) : Auction :=
  default Auction_zero (auctions s !! id).
Definition bids_at (s : Storage) (id : string) : list Bid :=
  default [] (bids s !! id).
Definition exists_at (s : Storage) (id : string) : bool :=
  default false (auctionExists s !! id).

Definition empty_storage : Storage := mkStorage ∅ ∅ ∅.

Definition set_highestBid (v : euint32) (a : Auction) : Auction :=
  mkAuction (nftId a) (startTime a) (endTime a) (highestBidder a) v (isActive a).
Definition set_highestBidder (v : address) (a : Auction) : Auction :=
  mkAuction (nftId a) (startTime a) (endTime a) v (highestBid a) (isActive a).
Definition set_isActive (v : bool) (a : Auction) : Auction :=
  mkAuction (nftId a) (startTime a) (endTime a) (highestBidder a) (highestBid a) v.

Definition write_auction (id : string) (a : Auction) (s : Storage) : Storage :=
  mkStorage (<[id := a]> (auctions s)) (bids s) (auctionExists s).
Definition update_auction (id : string) (f : Auction -> Auction) (s : Storage) : Storage :=
  write_auction id (f (auction_at s id)) s.
Definition write_exists (id : string) (b : bool) (s : Storage) : Storage :=
  mkStorage (auctions s) (bids s) (<[id := b]> (auctionExists s)).
Definition push_bid (id : string) (b : Bid) (s : Storage) : Storage :=
  mkStorage (auctions s) (<[id := bids_at s id ++ [b]]> (bids s)) (auctionExists s).

(** ** Events, access-control grants and reverts *)

Inductive Event :=
| AuctionCreated (nftId : string) (startTime endTime : N)
| BidPlaced (nftId : string) (bidder : address)
| AuctionConcluded (nftId : string) (winner : address) (winningBid : N).

(** [FHE.allowThis] and [FHE.makePubliclyDecryptable] write to the ACL of the
    FHE host, not to the contract's storage; they are recorded as grants. *)
Inductive Grant :=
| AllowThis (h : euint32) (this : address)
| PubliclyDecryptable (h : euint32).

Inductive Failure :=
| Error (msg : string)          (* require(cond, msg) *)
| Panic (code : N)              (* checked arithmetic: Panic(0x11) *)
| DecodeFailure                 (* abi.decode on malformed data *)
| LibraryRevert (call : string) (* a revert raised inside an FHE library call *).

(** The error names of the design document, as the reverts of the code. *)
Definition NotFound : Failure := Error "Auction does not exist".
Definition AlreadyExists : Failure := Error "Auction already exists".
Definition Inactive : Failure := Error "Auction is not active".
Definition NotYetOpen : Failure := Error "Auction has not started".
Definition Expired : Failure := Error "Auction has ended".
Definition StillActive : Failure := Error "Auction is still active".
Definition AlreadyConcluded : Failure := Error "Auction already concluded".
Definition IndexOutOfRange : Failure := Error "Invalid bid index".
Definition InvalidCiphertext_proof : Failure := LibraryRevert "FHE.fromExternal".
Definition InvalidCiphertext_handle : Failure := Error "Invalid encrypted bid".
Definition InvalidProof : Failure := LibraryRevert "FHE.checkSignatures".
Definition Overflow : Failure := Panic 17.

(** ** The execution monad *)

(** The machine carries the storage, the events and grants issued so far and
    the sequence of branch decisions taken ([path]).  A revert keeps the
    machine as it was at the point of failure, so that one can tell what had
    been done before the failure; [transact] below discards it. *)
Record Machine := mkMachine {
  store : Storage;
  logs : list Event;
  acl : list Grant;
  path : list bool
}.

Inductive Res (A : Type) :=
| Ok (a : A) (m : Machine)
| Revert (f : Failure) (m : Machine).
Arguments Ok {A} a m.
Arguments Revert {A} f m.

Definition M (A : Type) : Type := Machine -> Res A.

Definition ret {A} (a : A) : M A := fun m => Ok a m.
Definition bind {A B} (c : M A) (k : A -> M B) : M B :=
  fun m => match c m with
           | Ok a m' => k a m'
           | Revert f m' => Revert f m'
           end.

Notation "'do' x <- c ; k" := (bind c (fun x => k))
  (at level 10, x name, c at level 99, k at level 200).
Notation "c ;; k" := (bind c (fun _ => k))
  (at level 100, k at level 200, right associativity).

Definition revert {A} (f : Failure) : M A := fun m => Revert f m.
Definition sload {A} (f : Storage -> A) : M A := fun m => Ok (f (store m)) m.
Definition sstore (f : Storage -> Storage) : M unit :=
  fun m => Ok tt (mkMachine (f (store m)) (logs m) (acl m) (path m)).
Definition emit (e : Event) : M unit :=
  fun m => Ok tt (mkMachine (store m) (logs m ++ [e]) (acl m) (path m)).
Definition grant (g : Grant) : M unit :=
  fun m => Ok tt (mkMachine (store m) (logs m) (acl m ++ [g]) (path m)).

(** Every conditional of the code goes through [branch], which records the
    decision. *)
Definition branch (c : bool) : M bool :=
  fun m => Ok c (mkMachine (store m) (logs m) (acl m) (path m ++ [c])).

Definition require (c : bool) (msg : string) : M unit :=
  do b <- branch c; if b then ret tt else revert (Error msg).
Definition when (c : bool) (body : M unit) : M unit :=
  do b <- branch c; if b then body else ret tt.
Definition checked_add (a b : N) : M N :=
  do fits <- branch (a + b <=? uint256_max);
  if fits then ret (a + b) else revert Overflow.
Definition unwrap {A} (o : option A) (f : Failure) : M A :=
  match o with
  | Some a => branch true;; ret a
  | None => branch false;; revert f
  end.

(** ** ABI decoding *)

(** [abi.decode(data, (uint32))]: the first 32-byte word, big endian; the
    decoder reverts when the data is shorter than a word or the word does not
    fit the type. *)
Definition be_word (bs : list byte) : N :=
  fold_left (fun acc b => acc * 256 + Byte.to_N b) bs 0.

Definition abi_decode_uint32 (data : bytes) : option N :=
  if (N.of_nat (length data) <? 32) then None
  else let w := be_word (take 32 data) in
       if w <=? uint32_max then Some w else None.

(** ** The FHE library interface *)

(** What the contract uses of [FHE].  [fromExternal] and [checkSignatures]
    revert inside the library when the proof is rejected ([None], [false]).
    [gt] yields an encrypted boolean; the contract uses it as the condition of
    an [if], so the interface gives the truth value it resolves to. *)
Record FHE := mkFHE {
  zero : N -> euint32;
  fromExternal : externalEuint32 -> bytes -> option euint32;
  isInitialized : euint32 -> bool;
  gt : euint32 -> euint32 -> bool;
  toBytes32 : euint32 -> bytes32;
  checkSignatures : list bytes32 -> bytes -> bytes -> bool
}.

Record Env := mkEnv {
  msg_sender : address;
  block_timestamp : N;
  this : address
}.

(** ** The contract *)

Section Contract.
Variable fhe : FHE.
Variable env : Env.

Definition onlyActiveAuction (nftId : string) (body : M unit) : M unit :=
  do ex <- sload (fun s => exists_at s nftId);
  require ex "Auction does not exist";;
  do act <- sload (fun s => isActive (auction_at s nftId));
  require act "Auction is not active";;
  do st <- sload (fun s => startTime (auction_at s nftId));
  require (st <=? block_timestamp env) "Auction has not started";;
  do en <- sload (fun s => endTime (auction_at s nftId));
  require (block_timestamp env <=? en) "Auction has ended";;
  body.

Definition createAuction (nftId : string) (duration : N) : M unit :=
  do ex <- sload (fun s => exists_at s nftId);
  require (negb ex) "Auction already exists";;
  let startTime := block_timestamp env in
  do endTime <- checked_add startTime duration;
  sstore (write_auction nftId
            (mkAuction nftId startTime endTime address0 (zero fhe 16) true));;
  sstore (write_exists nftId true);;
  emit (AuctionCreated nftId startTime endTime).

Definition placeBid (nftId : string) (encryptedBid : externalEuint32)
    (inputProof : bytes) : M unit :=
  onlyActiveAuction nftId (
    do encryptedBidValue <-
      unwrap (fromExternal fhe encryptedBid inputProof) InvalidCiphertext_proof;
    require (isInitialized fhe encryptedBidValue) "Invalid encrypted bid";;
    let newBid := mkBid (msg_sender env) encryptedBidValue (block_timestamp env) in
    sstore (push_bid nftId newBid);;
    do current <- sload (fun s => highestBid (auction_at s nftId));
    when (gt fhe encryptedBidValue current) (
      sstore (update_auction nftId (set_highestBid encryptedBidValue));;
      sstore (update_auction nftId (set_highestBidder (msg_sender env))));;
    grant (AllowThis encryptedBidValue (this env));;
    grant (PubliclyDecryptable encryptedBidValue);;
    emit (BidPlaced nftId (msg_sender env))).

Definition concludeAuction (nftId : string) (abiEncodedClearBid : bytes)
    (decryptionProof : bytes) : M unit :=
  do ex <- sload (fun s => exists_at s nftId);
  require ex "Auction does not exist";;
  do en <- sload (fun s => endTime (auction_at s nftId));
  require (en <? block_timestamp env) "Auction is still active";;
  do act <- sload (fun s => isActive (auction_at s nftId));
  require act "Auction already concluded";;
  do h <- sload (fun s => highestBid (auction_at s nftId));
  let cts := [toBytes32 fhe h] in
  do verified <- branch (checkSignatures fhe cts abiEncodedClearBid decryptionProof);
  (if verified then ret tt else revert InvalidProof);;
  do winningBid <- unwrap (abi_decode_uint32 abiEncodedClearBid) DecodeFailure;
  do winner <- sload (fun s => highestBidder (auction_at s nftId));
  sstore (update_auction nftId (set_isActive false));;
  emit (AuctionConcluded nftId winner winningBid).

Definition getHighestBid (nftId : string) : M euint32 :=
  do ex <- sload (fun s => exists_at s nftId);
  require ex "Auction does not exist";;
  sload (fun s => highestBid (auction_at s nftId)).

Definition getAuctionDetails (nftId : string)
    : M (string * N * N * address * bool) :=
  do ex <- sload (fun s => exists_at s nftId);
  require ex "Auction does not exist";;
  do auction <- sload (fun s => auction_at s nftId);
  let '(mkAuction name startTime endTime highestBidder _ isActive) := auction in
  ret (name, startTime, endTime, highestBidder, isActive).

Definition getBidCount (nftId : string) : M N :=
  do ex <- sload (fun s => exists_at s nftId);
  require ex "Auction does not exist";;
  sload (fun s => N.of_nat (length (bids_at s nftId))).

Definition getBid (nftId : string) (index : N) : M (address * euint32 * N) :=
  do ex <- sload (fun s => exists_at s nftId);
  require ex "Auction does not exist";;
  do len <- sload (fun s => N.of_nat (length (bids_at s nftId)));
  require (index <? len) "Invalid bid index";;
  do bid <- sload (fun s => bids_at s nftId !! N.to_nat index);
  match bid with
  | Some bid => ret (bidder bid, encryptedBid bid, timestamp bid)
  | None => revert (Panic 50)
  end.
End Contract.

(** ** Transactions *)

Inductive Call :=
| CreateAuction (nftId : string) (duration : N)
| PlaceBid (nftId : string) (encryptedBid : externalEuint32) (inputProof : bytes)
| ConcludeAuction (nftId : string) (abiEncodedClearBid decryptionProof : bytes).

Definition dispatch (fhe : FHE) (env : Env) (c : Call) : M unit :=
  match c with
  | CreateAuction id duration => createAuction fhe env id duration
  | PlaceBid id ct prf => placeBid fhe env id ct prf
  | ConcludeAuction id clear prf => concludeAuction fhe env id clear prf
  end.

Inductive Receipt :=
| Success (events : list Event)
| Failed (f : Failure).

Definition boot (s : Storage) : Machine := mkMachine s [] [] [].

(** A call that reverts leaves the storage of the contract as it was and
    emits nothing (EVM transaction semantics). *)
Definition transact (fhe : FHE) (env : Env) (c : Call) (s : Storage)
    : Storage * Receipt :=
  match dispatch fhe env c (boot s) with
  | Ok _ m => (store m, Success (logs m))
  | Revert f _ => (s, Failed f)
  end.

(** Read-only calls. *)
Definition view {A} (c : M A) (s : Storage) : Failure + A :=
  match c (boot s) with
  | Ok a _ => inr a
  | Revert f _ => inl f
  end.

Definition Tx : Type := Env * Call.

Definition step (fhe : FHE) (s : Storage) (tx : Tx) : Storage :=
  fst (transact fhe (fst tx) (snd tx) s).

Definition run (fhe : FHE) (txs : list Tx) (s : Storage) : Storage :=
  fold_left (step fhe) txs s.

(** The states of a deployed contract: those a sequence of transactions
    produces from the empty storage. *)
Definition reachable (fhe : FHE) (s : Storage) : Prop :=
  exists txs, run fhe txs empty_storage = s.

(** ** Plaintext view of the ledger *)

(** [plain] is a valuation of handles: the plaintext the FHE host holds for
    each ciphertext.  The contract never sees it. *)
Section Plaintexts.
Variable plain : euint32 -> N.

Definition bid_value (b : Bid) : N := plain (encryptedBid b).

Definition max_plain (l : list Bid) : N :=
  fold_right N.max 0 (map bid_value l).

(** The earliest bid of the ledger whose plaintext is [v]. *)
Fixpoint first_reaching (v : N) (l : list Bid) : option Bid :=
  match l with
  | [] => None
  | b :: l' => if bid_value b =? v then Some b else first_reaching v l'
  end.
End Plaintexts.

(** The running maximum as the contract computes it: the handle and bidder
    that [placeBid] leaves after the bids of [l], starting from [start]. *)
Definition leader (fhe : FHE) (start : euint32 * address) (l : list Bid)
    : euint32 * address :=
  fold_left (fun hw b => if gt fhe (encryptedBid b) (fst hw)
                         then (encryptedBid b, bidder b) else hw) l start.

(** ** A reference FHE host *)

(** An executable instance of the interface, parameterised by the plaintext
    valuation: input and decryption proofs are accepted when non-empty, the
    comparison is the comparison of plaintexts, and a decryption is accepted
    when the clear bytes decode to the plaintext of the single handle. *)
Definition nonempty (b : bytes) : bool :=
  match b with [] => false | _ => true end.

Definition host_zero : euint32 := 2 ^ 32.

Definition host (plain : euint32 -> N) : FHE := {|
  zero := fun _ => host_zero;
  fromExternal := fun ct prf => if nonempty prf then Some ct else None;
  isInitialized := fun h => negb (h =? 0);
  gt := fun a b => plain b <? plain a;
  toBytes32 := fun h => h;
  checkSignatures := fun cts clear prf =>
    match cts, abi_decode_uint32 clear with
    | [h], Some v => nonempty prf && (v =? plain h)
    | _, _ => false
    end
|}.

(** Handles of the reference host carry their plaintext in the low 32 bits. *)
Definition low32 (h : euint32) : N := h mod 2 ^ 32.
Definition handle_of (v : N) : euint32 := 2 ^ 32 + v.

Definition byte_of (n : N) : byte := default "000"%byte (Byte.of_N n).

(** [abi.encode(uint32 v)]: one 32-byte big-endian word. *)
Definition abi_encode_uint32 (v : N) : bytes :=
  repeat "000"%byte 28 ++
  [byte_of (v / 2 ^ 24 mod 256); byte_of (v / 2 ^ 16 mod 256);
   byte_of (v / 2 ^ 8 mod 256); byte_of (v mod 256)].

Definition some_proof : bytes := ["001"%byte].

(** ** Pure descriptions of the committed storage *)

Definition created (fhe : FHE) (env : Env) (id : string) (duration : N)
    (s : Storage) : Storage :=
  write_exists id true
    (write_auction id
       (mkAuction id (block_timestamp env) (block_timestamp env + duration)
                  address0 (zero fhe 16) true) s).

Definition placed (fhe : FHE) (env : Env) (id : string) (h : euint32)
    (s : Storage) : Storage :=
  let s1 := push_bid id (mkBid (msg_sender env) h (block_timestamp env)) s in
  if gt fhe h (highestBid (auction_at s1 id))
  then update_auction id (set_highestBidder (msg_sender env))
         (update_auction id (set_highestBid h) s1)
  else s1.

Definition concluded (id : string) (s : Storage) : Storage :=
  update_auction id (set_isActive false) s.

(** ** Observations used by the statements *)

(** The branch decisions of a computation started on storage [s], whether
    it returns or reverts. *)
Definition path_of {A} (c : M A) (s : Storage) : list bool :=
  match c (boot s) with
  | Ok _ m => path m
  | Revert _ m => path m
  end.

(** What a computation has done to the outside world. *)
Definition effects (m : Machine) : Storage * list Event * list Grant :=
  (store m, logs m, acl m).

(** Two FHE hosts that issue the same handles and accept the same input
    proofs; they may hold different plaintexts behind the handles, so [gt]
    and [checkSignatures] are left free. *)
Definition same_handles (f g : FHE) : Prop :=
  (forall n, zero f n = zero g n) /\
  (forall ct prf, fromExternal f ct prf = fromExternal g ct prf) /\
  (forall h, isInitialized f h = isInitialized g h) /\
  (forall h, toBytes32 f h = toBytes32 g h).

Definition sender_nonzero (tx : Tx) : Prop := msg_sender (fst tx) <> address0.

(** The representation invariant of the storage: an unregistered id has no
    bids and a zero record; for a registered one the stored handle and bidder
    are what [leader] computes from the ledger, and the window is ordered. *)
Definition consistent (fhe : FHE) (s : Storage) : Prop :=
  forall id,
    (exists_at s id = false ->
       bids_at s id = [] /\ auction_at s id = Auction_zero) /\
    (exists_at s id = true ->
       (highestBid (auction_at s id), highestBidder (auction_at s id))
         = leader fhe (zero fhe 16, address0) (bids_at s id) /\
       startTime (auction_at s id) <= endTime (auction_at s id)).

(** ** The statements of the design document, word for word *)

(** "The recorded highest bidder is the bidder whose plaintext bid value is
    maximal among all accepted bids, first bidder to reach the maximum". *)
Definition leader_is_first_max (plain : euint32 -> N) (s : Storage)
    (id : string) : Prop :=
  exists b,
    first_reaching plain (max_plain plain (bids_at s id)) (bids_at s id) = Some b /\
    highestBidder (auction_at s id) = bidder b.

(** "For any two runs of placeBid that differ only in the plaintexts, the
    control flow taken is identical". *)
Definition placeBid_constant_path : Prop :=
  forall f g env id ct prf s,
    same_handles f g ->
    path_of (placeBid f env id ct prf) s = path_of (placeBid g env id ct prf) s.

(** "On success concludeAuction records the revealed winning amount in the
    auction's state": some reading [obs] of the storage returns it. *)
Definition records_revealed_amount (obs : Storage -> string -> N) : Prop :=
  forall fhe env id clear prf s s' w v,
    transact fhe env (ConcludeAuction id clear prf) s
      = (s', Success [AuctionConcluded id w v]) ->
    obs s' id = v.

(** "placeBid fails with NotFound if unregistered, NotYetOpen if now < start,
    Expired if now > end, Inactive if active == false". *)
Definition placeBid_errors_as_stated (fhe : FHE) (env : Env) (id : string)
    (ct : externalEuint32) (prf : bytes) (s : Storage) : Prop :=
  let r := snd (transact fhe env (PlaceBid id ct prf) s) in
  (exists_at s id = false -> r = Failed NotFound) /\
  (exists_at s id = true ->
     block_timestamp env < startTime (auction_at s id) -> r = Failed NotYetOpen) /\
  (exists_at s id = true ->
     endTime (auction_at s id) < block_timestamp env -> r = Failed Expired) /\
  (exists_at s id = true ->
     isActive (auction_at s id) = false -> r = Failed Inactive).

(** "highest bidder != null iff at least one bid has been accepted". *)
Definition bidder_set_iff_bid_accepted (s : Storage) (id : string) : Prop :=
  highestBidder (auction_at s id) <> address0 <-> bids_at s id <> [].

(** "createAuction fails with AlreadyExists if id is registered; otherwise it
    sets start, end, active, the handle and the bidder and emits
    AuctionCreated". *)
Definition createAuction_as_stated (fhe : FHE) (env : Env) (id : string)
    (duration : N) (s : Storage) : Prop :=
  if exists_at s id
  then transact fhe env (CreateAuction id duration) s = (s, Failed AlreadyExists)
  else transact fhe env (CreateAuction id duration) s =
         (created fhe env id duration s,
          Success [AuctionCreated id (block_timestamp env)
                     (block_timestamp env + duration)]).

(** "For every registered auction whose ledger is empty and whose end time
    has passed, concludeAuction with a proof accepted for the encrypted-zero
    handle succeeds, with the zero address as winner". *)
Definition zero_bid_conclusion_as_stated (fhe : FHE) (env : Env) (id : string)
    (clear prf : bytes) (s : Storage) : Prop :=
  exists_at s id = true ->
  bids_at s id = [] ->
  endTime (auction_at s id) < block_timestamp env ->
  checkSignatures fhe [toBytes32 fhe (zero fhe 16)] clear prf = true ->
  forall v, abi_decode_uint32 clear = Some v ->
  transact fhe env (ConcludeAuction id clear prf) s =
    (concluded id s, Success [AuctionConcluded id address0 v]).

(** ** Concrete runs *)

Definition env_at (sender : address) (t : N) : Env := mkEnv sender t 4096.

Definition seller : address := 81.
Definition alice : address := 161.
Definition bob : address := 178.
Definition carol : address := 195.

Definition opening : list Tx :=
  [(env_at seller 1000, CreateAuction "nft-1" 3600)].

(** The scenario of the design document: bids of 50, 80 and 30. *)
Definition three_bids : list Tx :=
  opening ++
  [(env_at alice 1100, PlaceBid "nft-1" (handle_of 50) some_proof);
   (env_at bob 1200, PlaceBid "nft-1" (handle_of 80) some_proof);
   (env_at carol 1300, PlaceBid "nft-1" (handle_of 30) some_proof)].

(** A single accepted bid whose plaintext is zero. *)
Definition zero_bid : list Tx :=
  opening ++ [(env_at alice 1100, PlaceBid "nft-1" (handle_of 0) some_proof)].

(** An auction without bids, concluded at its first attempt. *)
Definition empty_concluded : list Tx :=
  opening ++
  [(env_at seller 4700, ConcludeAuction "nft-1" (abi_encode_uint32 0) some_proof)].

(** The scenario, concluded at 4700 with the proof for 80. *)
Definition three_bids_concluded : list Tx :=
  three_bids ++
  [(env_at seller 4700, ConcludeAuction "nft-1" (abi_encode_uint32 80) some_proof)].

(** A valuation that differs from [low32] on the handle of the bid of 80. *)
Definition low32_but_81 (h : euint32) : N :=
  if h =? handle_of 80 then 81 else low32 h.

(** ** Runs with a clock, and the grants of a run *)

(** Block timestamps do not decrease along a chain: [clock_from t txs] says
    so for the transactions [txs] executed after time [t]. *)
Fixpoint clock_from (t : N) (txs : list Tx) : Prop :=
  match txs with
  | [] => True
  | tx :: txs' =>
      t <= block_timestamp (fst tx) /\ clock_from (block_timestamp (fst tx)) txs'
  end.

(** The ACL grants a transaction commits: those of the call when it returns,
    none when it reverts. *)
Definition grants_of (fhe : FHE) (env : Env) (c : Call) (s : Storage)
    : list Grant :=
  match dispatch fhe env c (boot s) with
  | Ok _ m => acl m
  | Revert _ _ => []
  end.

Fixpoint run_grants (fhe : FHE) (txs : list Tx) (s : Storage) : list Grant :=
  match txs with
  | [] => []
  | tx :: txs' =>
      grants_of fhe (fst tx) (snd tx) s ++ run_grants fhe txs' (step fhe s tx)
  end.

Definition granted_handle (g : Grant) : euint32 :=
  match g with
  | AllowThis h _ => h
  | PubliclyDecryptable h => h
  end.

(** The auction a call addresses. *)
Definition call_id (c : Call) : string :=
  match c with
  | CreateAuction id _ => id
  | PlaceBid id _ _ => id
  | ConcludeAuction id _ _ => id
  end.

(** A ledger whose entries appear in the order of their timestamps. *)
Definition chronological (l : list Bid) : Prop :=
  forall i j bi bj,
    l !! i = Some bi -> l !! j = Some bj -> (i <= j)%nat ->
    timestamp bi <= timestamp bj.

(** ** The front end ([frontend/web/src/App.tsx]) *)

(** The pure state updates of the React component: the user's history and
    the form of the bid dialog.  Strings are byte strings; [Date.now()] and
    the wallet address are inputs. *)
Module App.

(** [{ action, data, timestamp: Date.now(), address }]; [data] has type
    [any] in the source. *)
Record HistoryItem (D : Type) := mkHistoryItem {
  action : string;
  data : D;
  timestamp : N;
  address : option string
}.
Arguments mkHistoryItem {D} action data timestamp address.

(** [setUserHistory(prev => [historyItem, ...prev.slice(0, 9)])] *)
Definition addUserHistory {D} (address : option string) (now : N)
    (action : string) (data : D) (prev : list (HistoryItem D))
    : list (HistoryItem D) :=
  mkHistoryItem action data now address :: take 9 prev.

(** The character class [\d]. *)
Definition is_digit (c : ascii) : bool :=
  ((48 <=? nat_of_ascii c) && (nat_of_ascii c <=? 57))%nat.

(** [value.replace(/[^\d]/g, '')] *)
Fixpoint replace_non_digits (value : string) : string :=
  match value with
  | EmptyString => EmptyString
  | String c rest =>
      if is_digit c then String c (replace_non_digits rest)
      else replace_non_digits rest
  end.

Fixpoint digits_only (value : string) : bool :=
  match value with
  | EmptyString => true
  | String c rest => is_digit c && digits_only rest
  end.

(** [handleChange] of the bid dialog, on the event target's name and value:
    [setAuctionData({ ...auctionData, [name]: ... })]. *)
Definition handleChange (name value : string)
    (auctionData : gmap string string) : gmap string string :=
  if decide (name = "bidAmount")
  then <[name := replace_non_digits value]> auctionData
  else <[name := value]> auctionData.

(** [useState({ name: "", bidAmount: "", description: "" })] *)
Definition newAuctionData : gmap string string :=
  <["name" := ""]> (<["bidAmount" := ""]> (<["description" := ""]> ∅)).

(** JavaScript's [!value] on a field that holds a string or is absent. *)
Definition falsy (field : option string) : bool :=
  match field with
  | None => true
  | Some EmptyString => true
  | Some _ => false
  end.

(** [disabled={creating || isEncrypting || !auctionData.name ||
    !auctionData.bidAmount}] of the submit button. *)
Definition submit_disabled (creating isEncrypting : bool)
    (auctionData : gmap string string) : bool :=
  creating || isEncrypting || falsy (auctionData !! "name")
  || falsy (auctionData !! "bidAmount").

(** A sequence of change events applied to the form. *)
Definition changes (events : list (string * string))
    (auctionData : gmap string string) : gmap string string :=
  fold_left (fun d e => handleChange (fst e) (snd e) d) events auctionData.

(** A sequence of history additions [(action, data, time)] for one wallet. *)
Definition additions {D} (address : option string)
    (entries : list (string * D * N)) (prev : list (HistoryItem D))
    : list (HistoryItem D) :=
  fold_left (fun h e => addUserHistory address (snd e) (fst (fst e)) (snd (fst e)) h)
    entries prev.

End App.

(** ** Execution lemmas *)

Ltac unfold_monad :=
  unfold onlyActiveAuction, require, when, checked_add, unwrap, bind, ret,
    revert, sload, sstore, emit, grant, branch in *.

Lemma transact_createAuction fhe env id duration s :
  transact fhe env (CreateAuction id duration) s =
  if exists_at s id then (s, Failed AlreadyExists)
  else if block_timestamp env + duration <=? uint256_max
       then (created fhe env id duration s,
             Success [AuctionCreated id (block_timestamp env)
                        (block_timestamp env + duration)])
       else (s, Failed Overflow).
Proof.
  unfold transact, dispatch, createAuction. unfold_monad. simpl.
  destruct (exists_at s id); simpl; [reflexivity|].
  destruct (_ <=? _); reflexivity.
Qed.

Lemma transact_placeBid fhe env id ct prf s :
  transact fhe env (PlaceBid id ct prf) s =
  if negb (exists_at s id) then (s, Failed NotFound)
  else if negb (isActive (auction_at s id)) then (s, Failed Inactive)
  else if negb (startTime (auction_at s id) <=? block_timestamp env)
       then (s, Failed NotYetOpen)
  else if negb (block_timestamp env <=? endTime (auction_at s id))
       then (s, Failed Expired)
  else match fromExternal fhe ct prf with
       | None => (s, Failed InvalidCiphertext_proof)
       | Some h =>
           if isInitialized fhe h
           then (placed fhe env id h s, Success [BidPlaced id (msg_sender env)])
           else (s, Failed InvalidCiphertext_handle)
       end.
Proof.
  unfold transact, dispatch, placeBid, placed. unfold_monad. simpl.
  destruct (exists_at s id); simpl; [|reflexivity].
  destruct (isActive (auction_at s id)); simpl; [|reflexivity].
  destruct (startTime (auction_at s id) <=? _); simpl; [|reflexivity].
  destruct (_ <=? endTime (auction_at s id)); simpl; [|reflexivity].
  destruct (fromExternal fhe ct prf) as [h|]; simpl; [|reflexivity].
  destruct (isInitialized fhe h); simpl; [|reflexivity].
  destruct (gt fhe h _); reflexivity.
Qed.

Lemma transact_concludeAuction fhe env id clear prf s :
  transact fhe env (ConcludeAuction id clear prf) s =
  if negb (exists_at s id) then (s, Failed NotFound)
  else if negb (endTime (auction_at s id) <? block_timestamp env)
       then (s, Failed StillActive)
  else if negb (isActive (auction_at s id)) then (s, Failed AlreadyConcluded)
  else if negb (checkSignatures fhe [toBytes32 fhe (highestBid (auction_at s id))]
                  clear prf)
       then (s, Failed InvalidProof)
  else match abi_decode_uint32 clear with
       | None => (s, Failed DecodeFailure)
       | Some v =>
           (concluded id s,
            Success [AuctionConcluded id (highestBidder (auction_at s id)) v])
       end.
Proof.
  unfold transact, dispatch, concludeAuction, concluded. unfold_monad. simpl.
  destruct (exists_at s id); simpl; [|reflexivity].
  destruct (endTime (auction_at s id) <? _); simpl; [|reflexivity].
  destruct (isActive (auction_at s id)); simpl; [|reflexivity].
  destruct (checkSignatures fhe _ clear prf); simpl; [|reflexivity].
  destruct (abi_decode_uint32 clear); reflexivity.
Qed.

(** ** Reading the storage after a write *)

Lemma auction_at_write id a s id' :
  auction_at (write_auction id a s) id' =
  if decide (id = id') then a else auction_at s id'.
Proof.
  unfold auction_at, write_auction; simpl.
  rewrite lookup_insert. destruct (decide (id = id')); reflexivity.
Qed.

Lemma auction_at_update id f s id' :
  auction_at (update_auction id f s) id' =
  if decide (id = id') then f (auction_at s id) else auction_at s id'.
Proof. unfold update_auction. apply auction_at_write. Qed.

Lemma bids_at_push id b s id' :
  bids_at (push_bid id b s) id' =
  if decide (id = id') then bids_at s id ++ [b] else bids_at s id'.
Proof.
  unfold bids_at at 1. unfold push_bid; simpl.
  rewrite lookup_insert. destruct (decide (id = id')); reflexivity.
Qed.

Lemma exists_at_write id b s id' :
  exists_at (write_exists id b s) id' =
  if decide (id = id') then b else exists_at s id'.
Proof.
  unfold exists_at, write_exists; simpl.
  rewrite lookup_insert. destruct (decide (id = id')); reflexivity.
Qed.

Lemma auction_at_created fhe env id d s id' :
  auction_at (created fhe env id d s) id' =
  if decide (id = id')
  then mkAuction id (block_timestamp env) (block_timestamp env + d)
         address0 (zero fhe 16) true
  else auction_at s id'.
Proof.
  unfold created. etransitivity; [|apply auction_at_write]. reflexivity.
Qed.

Lemma bids_at_created fhe env id d s id' :
  bids_at (created fhe env id d s) id' = bids_at s id'.
Proof. reflexivity. Qed.

Lemma exists_at_created fhe env id d s id' :
  exists_at (created fhe env id d s) id' =
  if decide (id = id') then true else exists_at s id'.
Proof. unfold created. rewrite exists_at_write. reflexivity. Qed.

Lemma bids_at_placed fhe env id h s id' :
  bids_at (placed fhe env id h s) id' =
  if decide (id = id')
  then bids_at s id ++ [mkBid (msg_sender env) h (block_timestamp env)]
  else bids_at s id'.
Proof.
  unfold placed. destruct (gt fhe h _); [|apply bids_at_push].
  change (bids_at (update_auction _ _ (update_auction _ _ ?s1)) id')
    with (bids_at s1 id').
  apply bids_at_push.
Qed.

Lemma exists_at_placed fhe env id h s id' :
  exists_at (placed fhe env id h s) id' = exists_at s id'.
Proof. unfold placed. destruct (gt fhe h _); reflexivity. Qed.

Lemma auction_at_placed fhe env id h s id' :
  auction_at (placed fhe env id h s) id' =
  if decide (id = id')
  then if gt fhe h (highestBid (auction_at s id))
       then set_highestBidder (msg_sender env)
              (set_highestBid h (auction_at s id))
       else auction_at s id
  else auction_at s id'.
Proof.
  unfold placed.
  change (auction_at (push_bid id _ s) id) with (auction_at s id).
  destruct (gt fhe h _).
  - rewrite !auction_at_update.
    destruct (decide (id = id')) as [->|]; [|reflexivity].
    rewrite decide_True by reflexivity. reflexivity.
  - destruct (decide (id = id')) as [->|]; reflexivity.
Qed.

Lemma auction_at_concluded id s id' :
  auction_at (concluded id s) id' =
  if decide (id = id') then set_isActive false (auction_at s id)
  else auction_at s id'.
Proof. unfold concluded. apply auction_at_update. Qed.

Lemma bids_at_concluded id s id' : bids_at (concluded id s) id' = bids_at s id'.
Proof. reflexivity. Qed.

Lemma exists_at_concluded id s id' :
  exists_at (concluded id s) id' = exists_at s id'.
Proof. reflexivity. Qed.

(** ** One transaction, by cases *)

(** A relation between the storage before and after holds for every
    transaction as soon as it holds for a revert and for the three successful
    updates under the guards the code checks; [P] may mention the caller. *)
Lemma step_cases (fhe : FHE) (P : Env -> Storage -> Storage -> Prop) :
  (forall env s, P env s s) ->
  (forall s env id d,
      exists_at s id = false ->
      block_timestamp env + d <= uint256_max ->
      P env s (created fhe env id d s)) ->
  (forall s env id ct prf h,
      exists_at s id = true ->
      isActive (auction_at s id) = true ->
      startTime (auction_at s id) <= block_timestamp env ->
      block_timestamp env <= endTime (auction_at s id) ->
      fromExternal fhe ct prf = Some h ->
      isInitialized fhe h = true ->
      P env s (placed fhe env id h s)) ->
  (forall s env id,
      exists_at s id = true ->
      isActive (auction_at s id) = true ->
      endTime (auction_at s id) < block_timestamp env ->
      P env s (concluded id s)) ->
  forall s tx, P (fst tx) s (step fhe s tx).
Proof.
  intros Hrefl Hcreate Hplace Hconclude s [env [id d|id ct prf|id clear prf]];
    unfold step; simpl.
  - rewrite transact_createAuction.
    destruct (exists_at s id) eqn:Hex; [apply Hrefl|].
    destruct (_ <=? _) eqn:Hfit; [|apply Hrefl].
    apply (Hcreate s env id d); [assumption|]. apply N.leb_le. assumption.
  - rewrite transact_placeBid.
    destruct (exists_at s id) eqn:Hex; simpl; [|apply Hrefl].
    destruct (isActive (auction_at s id)) eqn:Hact; simpl; [|apply Hrefl].
    destruct (startTime (auction_at s id) <=? _) eqn:Hst; simpl; [|apply Hrefl].
    destruct (_ <=? endTime (auction_at s id)) eqn:Hen; simpl; [|apply Hrefl].
    destruct (fromExternal fhe ct prf) as [h|] eqn:Hin; [|apply Hrefl].
    destruct (isInitialized fhe h) eqn:Hinit; [|apply Hrefl].
    apply N.leb_le in Hst, Hen. simpl. eapply Hplace; eassumption.
  - rewrite transact_concludeAuction.
    destruct (exists_at s id) eqn:Hex; simpl; [|apply Hrefl].
    destruct (endTime (auction_at s id) <? _) eqn:Hen; simpl; [|apply Hrefl].
    destruct (isActive (auction_at s id)) eqn:Hact; simpl; [|apply Hrefl].
    destruct (checkSignatures fhe _ clear prf); simpl; [|apply Hrefl].
    destruct (abi_decode_uint32 clear); [|apply Hrefl].
    apply N.ltb_lt in Hen. simpl. apply (Hconclude s env id); assumption.
Qed.

(** A property of the storage that every transaction preserves holds after
    any run. *)
Lemma run_preserves (fhe : FHE) (P : Storage -> Prop) :
  (forall s tx, P s -> P (step fhe s tx)) ->
  forall txs s, P s -> P (run fhe txs s).
Proof.
  intros Hstep txs. unfold run.
  induction txs as [|tx txs IH]; intros s Hs; simpl; [assumption|].
  apply IH, Hstep, Hs.
Qed.

Lemma run_app fhe txs1 txs2 s :
  run fhe (txs1 ++ txs2) s = run fhe txs2 (run fhe txs1 s).
Proof. unfold run. apply fold_left_app. Qed.

(** ** The representation invariant *)

Lemma leader_snoc fhe start l b :
  leader fhe start (l ++ [b]) =
  if gt fhe (encryptedBid b) (fst (leader fhe start l))
  then (encryptedBid b, bidder b) else leader fhe start l.
Proof. unfold leader. rewrite fold_left_app. reflexivity. Qed.

Lemma consistent_empty fhe : consistent fhe empty_storage.
Proof. intros id. split; [split; reflexivity | discriminate]. Qed.

Lemma consistent_step fhe s tx : consistent fhe s -> consistent fhe (step fhe s tx).
Proof.
  revert s tx.
  apply (step_cases fhe (fun _ s s' => consistent fhe s -> consistent fhe s')).
  - auto.
  - intros s env id d Hex Hfit Hs id'. specialize (Hs id').
    rewrite exists_at_created, auction_at_created, bids_at_created.
    destruct (decide (id = id')) as [<-|Hne]; [|exact Hs].
    split; [discriminate|]. intros _. simpl.
    destruct Hs as [Hs _]. destruct (Hs Hex) as [-> _].
    split; [reflexivity|lia].
  - intros s env id ct prf h Hex Hact Hst Hen Hin Hinit Hs id'.
    specialize (Hs id').
    rewrite exists_at_placed, auction_at_placed, bids_at_placed.
    destruct (decide (id = id')) as [<-|Hne]; [|exact Hs].
    split; [congruence|]. intros _.
    destruct Hs as [_ Hs]. destruct (Hs Hex) as [Hlead Hwin].
    rewrite leader_snoc, <- Hlead. simpl.
    destruct (gt fhe h _); simpl; split; auto.
  - intros s env id Hex Hact Hen Hs id'. specialize (Hs id').
    rewrite exists_at_concluded, auction_at_concluded, bids_at_concluded.
    destruct (decide (id = id')) as [<-|Hne]; [|exact Hs].
    split; [congruence|]. intros _.
    destruct Hs as [_ Hs]. destruct (Hs Hex) as [Hlead Hwin]. simpl. auto.
Qed.

Lemma reachable_consistent fhe s : reachable fhe s -> consistent fhe s.
Proof.
  intros [txs <-].
  apply (run_preserves fhe (consistent fhe)).
  - intros s tx. apply consistent_step.
  - apply consistent_empty.
Qed.

(** ** The running maximum against the plaintexts *)

Section Leader.
Variable fhe : FHE.
Variable plain : euint32 -> N.
Hypothesis gt_plain : forall a b, gt fhe a b = (plain b <? plain a).
Hypothesis zero_plain : plain (zero fhe 16) = 0.

Lemma max_plain_snoc l b :
  max_plain plain (l ++ [b]) = N.max (max_plain plain l) (bid_value plain b).
Proof.
  unfold max_plain. induction l as [|a l IH]; simpl.
  - lia.
  - rewrite IH. lia.
Qed.

Lemma first_reaching_app v l l' :
  first_reaching plain v (l ++ l') =
  match first_reaching plain v l with
  | Some b => Some b
  | None => first_reaching plain v l'
  end.
Proof.
  induction l as [|a l IH]; simpl; [reflexivity|].
  destruct (bid_value plain a =? v); [reflexivity|apply IH].
Qed.

Lemma first_reaching_above v l :
  max_plain plain l < v -> first_reaching plain v l = None.
Proof.
  unfold max_plain. induction l as [|a l IH]; simpl; intros Hlt; [reflexivity|].
  destruct (bid_value plain a =? v) eqn:Heq.
  - apply N.eqb_eq in Heq. lia.
  - apply IH. lia.
Qed.

(** The handle kept by the contract always holds the maximal plaintext of
    the ledger; it is the initial pair while no bid is positive, and the
    first bid reaching the maximum afterwards. *)
Lemma leader_first_max l :
  let hw := leader fhe (zero fhe 16, address0) l in
  plain (fst hw) = max_plain plain l /\
  (max_plain plain l = 0 -> hw = (zero fhe 16, address0)) /\
  (0 < max_plain plain l ->
   exists b, first_reaching plain (max_plain plain l) l = Some b /\
             fst hw = encryptedBid b /\ snd hw = bidder b).
Proof.
  induction l as [|b l IH] using rev_ind; simpl.
  - split; [exact zero_plain|]. split; [reflexivity|].
    unfold max_plain; simpl; lia.
  - destruct IH as (Hmax & Hnone & Hsome).
    rewrite leader_snoc, gt_plain, Hmax, max_plain_snoc.
    fold (bid_value plain b).
    destruct (max_plain plain l <? bid_value plain b) eqn:Hcmp.
    + apply N.ltb_lt in Hcmp. simpl.
      replace (N.max (max_plain plain l) (bid_value plain b))
        with (bid_value plain b) by lia.
      split; [reflexivity|]. split; [lia|]. intros _. exists b.
      rewrite first_reaching_app, (first_reaching_above _ _ Hcmp). simpl.
      rewrite N.eqb_refl. auto.
    + apply N.ltb_ge in Hcmp.
      replace (N.max (max_plain plain l) (bid_value plain b))
        with (max_plain plain l) by lia.
      split; [exact Hmax|]. split; [exact Hnone|].
      intros Hpos. destruct (Hsome Hpos) as (w & Hw & Hh & Hb).
      exists w. rewrite first_reaching_app, Hw. auto.
Qed.
End Leader.

(** ** C1 and C7: the highest bidder against the ledger *)

Lemma first_reaching_elem plain v l b :
  first_reaching plain v l = Some b -> b ∈ l.
Proof.
  induction l as [|a l IH]; simpl; [discriminate|].
  destruct (bid_value plain a =? v).
  - intros [= ->]. apply list_elem_of_here.
  - intros H. apply list_elem_of_further, IH, H.
Qed.

Lemma max_plain_positive plain l :
  0 < max_plain plain l <-> Exists (fun b => 0 < bid_value plain b) l.
Proof.
  unfold max_plain. induction l as [|a l IH]; simpl.
  - split; [lia|]. intros H. inversion H.
  - rewrite Exists_cons, <- IH. lia.
Qed.

Lemma bidders_nonzero fhe txs :
  Forall sender_nonzero txs ->
  forall s,
    (forall id, Forall (fun b => bidder b <> address0) (bids_at s id)) ->
    forall id, Forall (fun b => bidder b <> address0) (bids_at (run fhe txs s) id).
Proof.
  unfold run. induction 1 as [|tx txs Htx _ IH]; intros s Hs; simpl; [exact Hs|].
  apply IH. revert Htx Hs. unfold sender_nonzero.
  apply (step_cases fhe (fun env s s' =>
    msg_sender env <> address0 ->
    (forall id, Forall (fun b => bidder b <> address0) (bids_at s id)) ->
    forall id, Forall (fun b => bidder b <> address0) (bids_at s' id))).
  - auto.
  - intros s0 env id d _ _ _ Hs id'. rewrite bids_at_created. apply Hs.
  - intros s0 env id ct prf h _ _ _ _ _ _ Hsender Hs id'.
    rewrite bids_at_placed. destruct (decide (id = id')); [|apply Hs].
    apply Forall_app. split; [apply Hs|]. constructor; [exact Hsender|constructor].
  - intros s0 env id _ _ _ _ Hs id'. rewrite bids_at_concluded. apply Hs.
Qed.

(** For a registered auction of a reachable state, the stored pair is the
    one [leader_first_max] describes. *)
Lemma stored_pair_first_max (fhe : FHE) (plain : euint32 -> N)
    (s : Storage) (id : string) :
  (forall a b, gt fhe a b = (plain b <? plain a)) ->
  plain (zero fhe 16) = 0 ->
  reachable fhe s ->
  exists_at s id = true ->
  plain (highestBid (auction_at s id)) = max_plain plain (bids_at s id) /\
  (max_plain plain (bids_at s id) = 0 ->
     highestBidder (auction_at s id) = address0) /\
  (0 < max_plain plain (bids_at s id) ->
     exists b,
       first_reaching plain (max_plain plain (bids_at s id)) (bids_at s id) = Some b /\
       highestBid (auction_at s id) = encryptedBid b /\
       highestBidder (auction_at s id) = bidder b).
Proof.
  intros Hgt Hzero Hreach Hex.
  destruct (reachable_consistent _ _ Hreach id) as [_ Hold].
  destruct (Hold Hex) as [Hlead _].
  pose proof (leader_first_max fhe plain Hgt Hzero (bids_at s id)) as Hmax.
  simpl in Hmax. rewrite <- Hlead in Hmax. simpl in Hmax.
  destruct Hmax as (Hval & Hnone & Hsome).
  split; [exact Hval|]. split; [|exact Hsome].
  intros H0. apply Hnone in H0. congruence.
Qed.

Lemma unregistered_blank fhe s id :
  reachable fhe s -> exists_at s id = false ->
  bids_at s id = [] /\ auction_at s id = Auction_zero.
Proof.
  intros Hreach Hex.
  destruct (reachable_consistent _ _ Hreach id) as [Hnew _]. auto.
Qed.

(** C1 (amended): in every reachable state, when some accepted bid of an
    auction has a positive plaintext, the recorded highest bidder and handle
    are those of the first ledger entry whose plaintext equals the maximum
    over the ledger; when no accepted bid is positive (no bid, or only bids
    of zero) the highest bidder is still the zero address.  The stored handle
    of a registered auction always holds the maximal plaintext. *)
Theorem highest_bidder_first_max (fhe : FHE) (plain : euint32 -> N)
    (s : Storage) (id : string) :
  (forall a b, gt fhe a b = (plain b <? plain a)) ->
  plain (zero fhe 16) = 0 ->
  reachable fhe s ->
  (0 < max_plain plain (bids_at s id) ->
     exists b,
       first_reaching plain (max_plain plain (bids_at s id)) (bids_at s id) = Some b /\
       highestBidder (auction_at s id) = bidder b /\
       highestBid (auction_at s id) = encryptedBid b) /\
  (max_plain plain (bids_at s id) = 0 ->
     highestBidder (auction_at s id) = address0) /\
  (exists_at s id = true ->
     plain (highestBid (auction_at s id)) = max_plain plain (bids_at s id)).
Proof.
  intros Hgt Hzero Hreach.
  destruct (exists_at s id) eqn:Hex.
  - destruct (stored_pair_first_max fhe plain s id Hgt Hzero Hreach Hex)
      as (Hval & Hnone & Hsome).
    split; [|split].
    + intros Hpos. destruct (Hsome Hpos) as (b & Hb & Hh & Hw).
      exists b. auto.
    + exact Hnone.
    + intros _. exact Hval.
  - destruct (unregistered_blank fhe s id Hreach Hex) as [Hnil Hblank].
    rewrite Hnil, Hblank.
    split; [|split].
    + unfold max_plain; simpl; lia.
    + reflexivity.
    + discriminate.
Qed.

(** In the scenario of the design document (bids of 50, 80 and 30) the
    recorded bidder is the author of the bid of 80. *)
Lemma highest_bidder_first_max_witness :
  leader_is_first_max low32 (run (host low32) three_bids empty_storage) "nft-1".
Proof.
  destruct (highest_bidder_first_max (host low32) low32
              (run (host low32) three_bids empty_storage) "nft-1")
    as (Hpos & _).
  - intros a b. reflexivity.
  - vm_compute. reflexivity.
  - exists three_bids. reflexivity.
  - destruct Hpos as (b & Hb & Hw & _); [vm_compute; reflexivity|].
    exists b. split; assumption.
Defined.

(** C1 as stated fails: after a single accepted bid whose plaintext is zero,
    the ledger is not empty, its maximal plaintext is reached first by that
    bid, and the recorded highest bidder is the zero address, not the
    bidder. *)
Lemma zero_bid_leader_not_first_max :
  reachable (host low32) (run (host low32) zero_bid empty_storage) /\
  bids_at (run (host low32) zero_bid empty_storage) "nft-1"
    = [mkBid alice (handle_of 0) 1100] /\
  ~ leader_is_first_max low32 (run (host low32) zero_bid empty_storage) "nft-1".
Proof.
  split; [exists zero_bid; reflexivity|].
  split; [vm_compute; reflexivity|].
  intros (b & Hb & Hw). vm_compute in Hb, Hw.
  injection Hb as <-. discriminate Hw.
Qed.

(** C7 (amended): when every transaction has a non-zero sender, the highest
    bidder of an auction is non-zero exactly when some accepted bid of its
    ledger has a positive plaintext. *)
Theorem highest_bidder_set_iff_positive_bid (fhe : FHE) (plain : euint32 -> N)
    (txs : list Tx) (id : string) :
  (forall a b, gt fhe a b = (plain b <? plain a)) ->
  plain (zero fhe 16) = 0 ->
  Forall sender_nonzero txs ->
  highestBidder (auction_at (run fhe txs empty_storage) id) <> address0 <->
  Exists (fun b => 0 < bid_value plain b) (bids_at (run fhe txs empty_storage) id).
Proof.
  intros Hgt Hzero Hsenders.
  set (s := run fhe txs empty_storage).
  assert (Hreach : reachable fhe s) by (exists txs; reflexivity).
  assert (Hinit : forall i, Forall (fun b => bidder b <> address0)
                              (bids_at empty_storage i)) by (intros i; constructor).
  pose proof (bidders_nonzero fhe txs Hsenders empty_storage Hinit id) as Hall.
  fold s in Hall. rewrite Forall_forall in Hall.
  rewrite <- max_plain_positive.
  destruct (exists_at s id) eqn:Hex.
  - destruct (stored_pair_first_max fhe plain s id Hgt Hzero Hreach Hex)
      as (_ & Hnone & Hsome).
    split.
    + intros Hw.
      destruct (N.eq_dec (max_plain plain (bids_at s id)) 0) as [H0|H0]; [|lia].
      elim Hw. apply Hnone, H0.
    + intros Hmax. destruct (Hsome Hmax) as (b & Hb & _ & ->).
      apply Hall. eapply first_reaching_elem, Hb.
  - destruct (unregistered_blank fhe s id Hreach Hex) as [Hnil Hblank].
    rewrite Hnil, Hblank. unfold max_plain. simpl.
    split; [intros H; elim H; reflexivity|lia].
Qed.

(** In the scenario of the design document the senders are non-zero and Bob
    is recorded. *)
Lemma highest_bidder_set_iff_positive_bid_witness :
  highestBidder (auction_at (run (host low32) three_bids empty_storage) "nft-1")
    <> address0 <->
  Exists (fun b => 0 < bid_value low32 b)
    (bids_at (run (host low32) three_bids empty_storage) "nft-1").
Proof.
  apply (highest_bidder_set_iff_positive_bid (host low32) low32 three_bids "nft-1").
  - intros a b. reflexivity.
  - vm_compute. reflexivity.
  - repeat constructor; discriminate.
Defined.

(** C7 as stated fails: a bid whose plaintext is zero is accepted and
    appended to the ledger, and the highest bidder stays the zero address. *)
Lemma zero_bid_accepted_bidder_unset :
  Forall sender_nonzero zero_bid /\
  ~ bidder_set_iff_bid_accepted (run (host low32) zero_bid empty_storage) "nft-1".
Proof.
  split; [repeat constructor; discriminate|].
  intros [_ H]. apply H.
  - vm_compute. discriminate.
  - vm_compute. reflexivity.
Qed.

(** ** C2: the control flow of [placeBid] *)

Lemma same_handles_host p q : same_handles (host p) (host q).
Proof. repeat split. Qed.

(** C2 (amended): between two runs of [placeBid] on the same storage and
    arguments, over hosts that issue the same handles, the branch decisions
    are identical as soon as the comparison of the submitted handle with the
    stored one resolves the same way; the plaintexts influence the control
    flow through this one bit, which decides the [if] that overwrites the
    highest bid and bidder. *)
Theorem placeBid_path_by_comparison (f g : FHE) (env : Env) (id : string)
    (ct : externalEuint32) (prf : bytes) (s : Storage) :
  same_handles f g ->
  (forall h, fromExternal f ct prf = Some h ->
     gt f h (highestBid (auction_at s id)) = gt g h (highestBid (auction_at s id))) ->
  path_of (placeBid f env id ct prf) s = path_of (placeBid g env id ct prf) s.
Proof.
  intros (_ & Hin & Hinit & _) Hcmp.
  unfold path_of, placeBid. unfold_monad. simpl.
  destruct (exists_at s id); simpl; [|reflexivity].
  destruct (isActive (auction_at s id)); simpl; [|reflexivity].
  destruct (startTime (auction_at s id) <=? _); simpl; [|reflexivity].
  destruct (_ <=? endTime (auction_at s id)); simpl; [|reflexivity].
  rewrite <- Hin.
  destruct (fromExternal f ct prf) as [h|]; simpl; [|reflexivity].
  rewrite <- Hinit.
  destruct (isInitialized f h); simpl; [|reflexivity].
  change (auction_at (push_bid id _ s) id) with (auction_at s id).
  rewrite <- (Hcmp h eq_refl).
  destruct (gt f h _); reflexivity.
Qed.

(** Two hosts that hold different plaintexts behind both compared handles
    (50 against 57 behind the submitted handle, 0 against 7 behind the stored
    one) resolve the comparison the same way, and [placeBid] takes the same
    path in both. *)
Lemma placeBid_path_by_comparison_witness :
  low32 (handle_of 50) <> low32 (handle_of 50) + 7 /\
  low32 host_zero <> low32 host_zero + 7 /\
  path_of (placeBid (host low32) (env_at alice 1100) "nft-1" (handle_of 50) some_proof)
    (run (host low32) opening empty_storage) =
  path_of (placeBid (host (fun h => low32 h + 7)) (env_at alice 1100) "nft-1"
             (handle_of 50) some_proof)
    (run (host low32) opening empty_storage).
Proof.
  split; [vm_compute; discriminate|].
  split; [vm_compute; discriminate|].
  apply placeBid_path_by_comparison.
  - apply same_handles_host.
  - intros h Hh. injection Hh as <-. vm_compute. reflexivity.
Defined.

(** C2 as stated fails: on the same storage, handles and proofs, a host in
    which the submitted handle holds 50 and a host in which every handle
    holds 0 make [placeBid] take different branches: the [if] on the
    comparison is entered in the first run and skipped in the second. *)
Lemma placeBid_path_reveals_comparison :
  same_handles (host low32) (host (fun _ => 0)) /\
  path_of (placeBid (host low32) (env_at alice 1100) "nft-1" (handle_of 50) some_proof)
    (run (host low32) opening empty_storage)
    = [true; true; true; true; true; true; true] /\
  path_of (placeBid (host (fun _ => 0)) (env_at alice 1100) "nft-1" (handle_of 50)
             some_proof)
    (run (host low32) opening empty_storage)
    = [true; true; true; true; true; true; false] /\
  ~ placeBid_constant_path.
Proof.
  split; [apply same_handles_host|].
  split; [vm_compute; reflexivity|].
  split; [vm_compute; reflexivity|].
  intros H.
  specialize (H (host low32) (host (fun _ => 0)) (env_at alice 1100) "nft-1"
                (handle_of 50) some_proof (run (host low32) opening empty_storage)
                (same_handles_host _ _)).
  vm_compute in H. discriminate H.
Qed.

(** ** C3 and C10: concluding an auction *)

(** C3 (amended): when [concludeAuction] succeeds, the id was registered, the
    end time had passed, the auction was active and the decryption proof was
    accepted for the stored highest-bid handle; the call decodes the winning
    amount from the clear bytes, emits the single event
    [AuctionConcluded(id, highestBidder, amount)] and writes [isActive = false]
    in the auction's record.  Nothing else is written: the other fields of the
    record, the ledger and the existence flags are unchanged, and the decoded
    amount appears in the event only. *)
Theorem concludeAuction_success (fhe : FHE) (env : Env) (id : string)
    (clear prf : bytes) (s s' : Storage) (evs : list Event) :
  transact fhe env (ConcludeAuction id clear prf) s = (s', Success evs) ->
  (exists_at s id = true /\
   endTime (auction_at s id) < block_timestamp env /\
   isActive (auction_at s id) = true /\
   checkSignatures fhe [toBytes32 fhe (highestBid (auction_at s id))] clear prf = true) /\
  (exists v, abi_decode_uint32 clear = Some v /\
     evs = [AuctionConcluded id (highestBidder (auction_at s id)) v]) /\
  auction_at s' id =
    mkAuction (nftId (auction_at s id)) (startTime (auction_at s id))
      (endTime (auction_at s id)) (highestBidder (auction_at s id))
      (highestBid (auction_at s id)) false /\
  (forall id', id' <> id -> auction_at s' id' = auction_at s id') /\
  bids s' = bids s /\
  auctionExists s' = auctionExists s.
Proof.
  rewrite transact_concludeAuction.
  destruct (exists_at s id) eqn:Hex; simpl; [|discriminate].
  destruct (endTime (auction_at s id) <? _) eqn:Hen; simpl; [|discriminate].
  destruct (isActive (auction_at s id)) eqn:Hact; simpl; [|discriminate].
  destruct (checkSignatures fhe _ clear prf) eqn:Hsig; simpl; [|discriminate].
  destruct (abi_decode_uint32 clear) as [v|] eqn:Hdec; [|discriminate].
  intros [= <- <-]. apply N.ltb_lt in Hen.
  split; [auto|]. split; [exists v; auto|].
  split; [|split; [|split; reflexivity]].
  - rewrite auction_at_concluded, decide_True by reflexivity. reflexivity.
  - intros id' Hne. rewrite auction_at_concluded, decide_False by congruence.
    reflexivity.
Qed.

(** The scenario of the design document: concluding at 4700 with the proof
    for 80 announces Bob and 80. *)
Lemma concludeAuction_success_witness :
  (exists v,
     abi_decode_uint32 (abi_encode_uint32 80) = Some v /\
     [AuctionConcluded "nft-1" bob 80] =
     [AuctionConcluded "nft-1"
        (highestBidder
           (auction_at (run (host low32) three_bids empty_storage) "nft-1")) v]).
Proof.
  refine (proj1 (proj2 (concludeAuction_success (host low32) (env_at seller 4700)
    "nft-1" (abi_encode_uint32 80) some_proof
    (run (host low32) three_bids empty_storage)
    (concluded "nft-1" (run (host low32) three_bids empty_storage))
    [AuctionConcluded "nft-1" bob 80] _))).
  vm_compute. reflexivity.
Defined.

(** C3 as stated fails: no reading of the storage returns the revealed
    amount.  From the same storage, a host in which the highest handle holds
    80 and a host in which it holds 81 both conclude successfully, announce
    80 and 81, and commit the same storage. *)
Lemma revealed_amount_not_recorded :
  ~ exists obs, records_revealed_amount obs.
Proof.
  intros [obs H].
  pose proof (H (host low32) (env_at seller 4700) "nft-1"
                (abi_encode_uint32 80) some_proof
                (run (host low32) three_bids empty_storage)
                (concluded "nft-1" (run (host low32) three_bids empty_storage))
                bob 80) as H80.
  pose proof (H (host low32_but_81) (env_at seller 4700) "nft-1"
                (abi_encode_uint32 81) some_proof
                (run (host low32) three_bids empty_storage)
                (concluded "nft-1" (run (host low32) three_bids empty_storage))
                bob 81) as H81.
  assert (E : (80 : N) = 81); [|discriminate E].
  rewrite <- H80, <- H81; [reflexivity| |]; vm_compute; reflexivity.
Qed.

(** The representation invariant gives the stored pair of a registered
    auction without bids. *)
Lemma no_bids_initial_pair fhe s id :
  reachable fhe s -> exists_at s id = true -> bids_at s id = [] ->
  highestBid (auction_at s id) = zero fhe 16 /\
  highestBidder (auction_at s id) = address0.
Proof.
  intros Hreach Hex Hnil.
  destruct (reachable_consistent _ _ Hreach id) as [_ Hold].
  destruct (Hold Hex) as [Hlead _]. rewrite Hnil in Hlead. simpl in Hlead.
  injection Hlead as -> ->. auto.
Qed.

(** C10 (amended): for a registered auction that is still active (not yet
    concluded), whose ledger is empty and whose end time has passed,
    [concludeAuction] with clear bytes that decode to [v] and a proof
    accepted for the encrypted-zero handle succeeds: it writes
    [isActive = false] and emits [AuctionConcluded(id, address(0), v)]. *)
Theorem zero_bid_conclusion (fhe : FHE) (env : Env) (id : string)
    (clear prf : bytes) (s : Storage) (v : N) :
  reachable fhe s ->
  exists_at s id = true ->
  isActive (auction_at s id) = true ->
  bids_at s id = [] ->
  endTime (auction_at s id) < block_timestamp env ->
  checkSignatures fhe [toBytes32 fhe (zero fhe 16)] clear prf = true ->
  abi_decode_uint32 clear = Some v ->
  transact fhe env (ConcludeAuction id clear prf) s =
    (concluded id s, Success [AuctionConcluded id address0 v]) /\
  isActive (auction_at (concluded id s) id) = false.
Proof.
  intros Hreach Hex Hact Hnil Hen Hsig Hdec.
  destruct (no_bids_initial_pair fhe s id Hreach Hex Hnil) as [Hh Hw].
  rewrite transact_concludeAuction, Hex, Hact, Hh, Hsig, Hdec, Hw. simpl.
  apply N.ltb_lt in Hen. rewrite Hen. simpl.
  split; [reflexivity|].
  rewrite auction_at_concluded, decide_True by reflexivity. reflexivity.
Qed.

(** An auction opened at 1000 for 3600 seconds and concluded at 4700 without
    bids. *)
Lemma zero_bid_conclusion_witness :
  transact (host low32) (env_at seller 4700)
    (ConcludeAuction "nft-1" (abi_encode_uint32 0) some_proof)
    (run (host low32) opening empty_storage) =
    (concluded "nft-1" (run (host low32) opening empty_storage),
     Success [AuctionConcluded "nft-1" address0 0]) /\
  isActive (auction_at (concluded "nft-1" (run (host low32) opening empty_storage))
              "nft-1") = false.
Proof.
  apply (zero_bid_conclusion (host low32)).
  - exists opening. reflexivity.
  - vm_compute. reflexivity.
  - vm_compute. reflexivity.
  - vm_compute. reflexivity.
  - vm_compute. reflexivity.
  - vm_compute. reflexivity.
  - vm_compute. reflexivity.
Defined.

(** C10 as stated fails: an auction without bids that was already concluded
    is registered, has an empty ledger and a passed end time, and a proof
    accepted for the encrypted-zero handle; concluding it again reverts with
    "Auction already concluded". *)
Lemma zero_bid_conclusion_twice_fails :
  snd (transact (host low32) (env_at seller 4800)
         (ConcludeAuction "nft-1" (abi_encode_uint32 0) some_proof)
         (run (host low32) empty_concluded empty_storage))
    = Failed AlreadyConcluded /\
  ~ zero_bid_conclusion_as_stated (host low32) (env_at seller 4800) "nft-1"
      (abi_encode_uint32 0) some_proof
      (run (host low32) empty_concluded empty_storage).
Proof.
  split; [vm_compute; reflexivity|].
  intros H. unfold zero_bid_conclusion_as_stated in H.
  specialize (H eq_refl eq_refl eq_refl eq_refl 0 eq_refl).
  vm_compute in H. discriminate H.
Qed.

(** ** C4: a concluded auction stays concluded *)

Lemma closed_auction_frozen fhe id a l :
  isActive a = false ->
  forall txs s,
    exists_at s id = true /\ auction_at s id = a /\ bids_at s id = l ->
    exists_at (run fhe txs s) id = true /\
    auction_at (run fhe txs s) id = a /\
    bids_at (run fhe txs s) id = l.
Proof.
  intros Hclosed.
  apply (run_preserves fhe (fun s =>
    exists_at s id = true /\ auction_at s id = a /\ bids_at s id = l)).
  intros s tx. revert s tx.
  apply (step_cases fhe (fun _ s s' =>
    exists_at s id = true /\ auction_at s id = a /\ bids_at s id = l ->
    exists_at s' id = true /\ auction_at s' id = a /\ bids_at s' id = l)).
  - auto.
  - intros s env id0 d Hex _ (Hex' & Ha & Hl).
    rewrite exists_at_created, auction_at_created, bids_at_created.
    destruct (decide (id0 = id)) as [->|]; [congruence|auto].
  - intros s env id0 ct prf h _ Hact _ _ _ _ (Hex' & Ha & Hl).
    rewrite exists_at_placed, auction_at_placed, bids_at_placed.
    destruct (decide (id0 = id)) as [->|]; [congruence|auto].
  - intros s env id0 _ Hact _ (Hex' & Ha & Hl).
    rewrite exists_at_concluded, auction_at_concluded, bids_at_concluded.
    destruct (decide (id0 = id)) as [->|]; [congruence|auto].
Qed.

(** C4: once [concludeAuction] has succeeded for an id, after any further
    transactions the auction's record and ledger are as the first call left
    them; every later [concludeAuction] on the id reverts and changes
    nothing, and it reverts with "Auction already concluded" when its block
    timestamp is not before that of the successful call. *)
Theorem concludeAuction_once (fhe : FHE) (env env' : Env) (id : string)
    (clear prf clear' prf' : bytes) (s s1 : Storage) (evs : list Event)
    (txs : list Tx) :
  transact fhe env (ConcludeAuction id clear prf) s = (s1, Success evs) ->
  block_timestamp env <= block_timestamp env' ->
  transact fhe env' (ConcludeAuction id clear' prf') (run fhe txs s1)
    = (run fhe txs s1, Failed AlreadyConcluded) /\
  auction_at (run fhe txs s1) id = auction_at s1 id /\
  bids_at (run fhe txs s1) id = bids_at s1 id /\
  (forall e c p, exists f,
     transact fhe e (ConcludeAuction id c p) (run fhe txs s1)
       = (run fhe txs s1, Failed f)).
Proof.
  intros Hfirst Htime.
  rewrite transact_concludeAuction in Hfirst.
  destruct (exists_at s id) eqn:Hex; simpl in Hfirst; [|discriminate].
  destruct (endTime (auction_at s id) <? _) eqn:Hen; simpl in Hfirst;
    [|discriminate].
  destruct (isActive (auction_at s id)) eqn:Hact; simpl in Hfirst; [|discriminate].
  destruct (checkSignatures fhe _ clear prf); simpl in Hfirst; [|discriminate].
  destruct (abi_decode_uint32 clear); [|discriminate].
  injection Hfirst as <- _. apply N.ltb_lt in Hen.
  assert (Ha1 : auction_at (concluded id s) id = set_isActive false (auction_at s id))
    by (rewrite auction_at_concluded, decide_True by reflexivity; reflexivity).
  destruct (closed_auction_frozen fhe id (set_isActive false (auction_at s id))
              (bids_at (concluded id s) id) eq_refl txs (concluded id s))
    as (Hex2 & Ha2 & Hl2).
  { rewrite exists_at_concluded. auto. }
  rewrite Ha1. split; [|split; [exact Ha2|split; [exact Hl2|]]].
  - rewrite transact_concludeAuction, Hex2, Ha2. simpl.
    replace (endTime (auction_at s id) <? block_timestamp env') with true
      by (symmetry; apply N.ltb_lt; lia).
    reflexivity.
  - intros e c p. rewrite transact_concludeAuction, Hex2, Ha2. simpl.
    destruct (endTime (auction_at s id) <? block_timestamp e); simpl; eauto.
Qed.

(** The scenario concluded at 4700, a rejected bid attempt at 4800 and a
    second conclusion at 5000. *)
Lemma concludeAuction_once_witness :
  transact (host low32) (env_at carol 5000)
    (ConcludeAuction "nft-1" (abi_encode_uint32 80) some_proof)
    (run (host low32)
       [(env_at alice 4800, PlaceBid "nft-1" (handle_of 90) some_proof)]
       (run (host low32) three_bids_concluded empty_storage))
  = (run (host low32)
       [(env_at alice 4800, PlaceBid "nft-1" (handle_of 90) some_proof)]
       (run (host low32) three_bids_concluded empty_storage),
     Failed AlreadyConcluded).
Proof.
  refine (proj1 (concludeAuction_once (host low32) (env_at seller 4700)
    (env_at carol 5000) "nft-1" (abi_encode_uint32 80) some_proof
    (abi_encode_uint32 80) some_proof
    (run (host low32) three_bids empty_storage)
    (run (host low32) three_bids_concluded empty_storage)
    [AuctionConcluded "nft-1" bob 80]
    [(env_at alice 4800, PlaceBid "nft-1" (handle_of 90) some_proof)] _ _)).
  - vm_compute. reflexivity.
  - vm_compute. discriminate.
Defined.

(** ** C5: the guards of [placeBid] *)

(** C5 (amended): [placeBid] checks its guards in the order of the modifier:
    it fails with NotFound if the id is unregistered; otherwise with Inactive
    if the auction is not active; otherwise with NotYetOpen if now < start;
    otherwise with Expired if now > end.  A failing call leaves the whole
    storage (ledger, records, flags) unchanged, and a call succeeds only on a
    registered, active auction with start <= now <= end. *)
Theorem placeBid_guards (fhe : FHE) (env : Env) (id : string)
    (ct : externalEuint32) (prf : bytes) (s : Storage) :
  let r := transact fhe env (PlaceBid id ct prf) s in
  (exists_at s id = false -> r = (s, Failed NotFound)) /\
  (exists_at s id = true -> isActive (auction_at s id) = false ->
     r = (s, Failed Inactive)) /\
  (exists_at s id = true -> isActive (auction_at s id) = true ->
     block_timestamp env < startTime (auction_at s id) ->
     r = (s, Failed NotYetOpen)) /\
  (exists_at s id = true -> isActive (auction_at s id) = true ->
     startTime (auction_at s id) <= block_timestamp env ->
     endTime (auction_at s id) < block_timestamp env ->
     r = (s, Failed Expired)) /\
  (forall f, snd r = Failed f -> fst r = s) /\
  (forall evs, snd r = Success evs ->
     exists_at s id = true /\ isActive (auction_at s id) = true /\
     startTime (auction_at s id) <= block_timestamp env /\
     block_timestamp env <= endTime (auction_at s id)).
Proof.
  simpl. rewrite transact_placeBid.
  destruct (exists_at s id) eqn:Hex; simpl.
  2: { repeat split; try discriminate; reflexivity. }
  destruct (isActive (auction_at s id)) eqn:Hact; simpl.
  2: { repeat split; try discriminate; reflexivity. }
  destruct (startTime (auction_at s id) <=? _) eqn:Hst; simpl.
  2: { apply N.leb_gt in Hst.
       repeat split; try discriminate; try reflexivity; intros; lia. }
  apply N.leb_le in Hst.
  destruct (_ <=? endTime (auction_at s id)) eqn:Hen; simpl.
  2: { apply N.leb_gt in Hen.
       repeat split; try discriminate; try reflexivity; intros; lia. }
  apply N.leb_le in Hen.
  repeat split; try discriminate; try (intros; lia); try assumption.
  intros f.
  destruct (fromExternal fhe ct prf) as [h|]; [|reflexivity].
  destruct (isInitialized fhe h); [discriminate|reflexivity].
Qed.

(** C5 as stated fails: on the concluded auction of the scenario, a bid at
    5000 (after the end, 4600) reverts with "Auction is not active", not with
    "Auction has ended": the active flag is checked before the window. *)
Lemma placeBid_after_conclusion_inactive :
  snd (transact (host low32) (env_at alice 5000)
         (PlaceBid "nft-1" (handle_of 90) some_proof)
         (run (host low32) three_bids_concluded empty_storage))
    = Failed Inactive /\
  ~ placeBid_errors_as_stated (host low32) (env_at alice 5000) "nft-1"
      (handle_of 90) some_proof
      (run (host low32) three_bids_concluded empty_storage).
Proof.
  split; [vm_compute; reflexivity|].
  intros (_ & _ & Hexpired & _).
  specialize (Hexpired eq_refl eq_refl).
  vm_compute in Hexpired. discriminate Hexpired.
Qed.

(** ** C6: calls are atomic *)

(** C6: for each of [createAuction], [placeBid] and [concludeAuction], when
    the call reverts (with a [require] message, the overflow panic, a
    rejected input proof, an uninitialised handle, a rejected decryption
    proof or a decoding failure) nothing had been written, emitted or granted
    at the point of failure, and the transaction leaves the storage as it
    was; when it returns, the storage update was applied in full and exactly
    one event was emitted. *)
Theorem calls_are_atomic (fhe : FHE) (env : Env) (c : Call) (s : Storage) :
  match dispatch fhe env c (boot s) with
  | Revert f m =>
      effects m = effects (boot s) /\
      transact fhe env c s = (s, Failed f)
  | Ok _ m =>
      transact fhe env c s = (store m, Success (logs m)) /\
      length (logs m) = 1%nat /\
      match c with
      | CreateAuction id d => store m = created fhe env id d s
      | PlaceBid id ct prf =>
          exists h, fromExternal fhe ct prf = Some h /\
                    store m = placed fhe env id h s
      | ConcludeAuction id _ _ => store m = concluded id s
      end
  end.
Proof.
  unfold transact.
  destruct c as [id d|id ct prf|id clear prf]; simpl.
  - unfold createAuction. unfold_monad. simpl.
    destruct (exists_at s id); simpl; [split; reflexivity|].
    destruct (_ <=? _); simpl; repeat split; reflexivity.
  - unfold placeBid, placed. unfold_monad. simpl.
    destruct (exists_at s id); simpl; [|split; reflexivity].
    destruct (isActive (auction_at s id)); simpl; [|split; reflexivity].
    destruct (startTime (auction_at s id) <=? _); simpl; [|split; reflexivity].
    destruct (_ <=? endTime (auction_at s id)); simpl; [|split; reflexivity].
    destruct (fromExternal fhe ct prf) as [h|]; simpl; [|split; reflexivity].
    destruct (isInitialized fhe h); simpl; [|split; reflexivity].
    change (auction_at (push_bid id _ s) id) with (auction_at s id).
    destruct (gt fhe h _) eqn:Hgt; simpl;
      (split; [reflexivity|split; [reflexivity|]]); exists h;
      (split; [reflexivity|]);
      change (auction_at (push_bid id ?b s) id) with (auction_at s id);
      rewrite Hgt; reflexivity.
  - unfold concludeAuction, concluded. unfold_monad. simpl.
    destruct (exists_at s id); simpl; [|split; reflexivity].
    destruct (endTime (auction_at s id) <? _); simpl; [|split; reflexivity].
    destruct (isActive (auction_at s id)); simpl; [|split; reflexivity].
    destruct (checkSignatures fhe _ clear prf); simpl; [|split; reflexivity].
    destruct (abi_decode_uint32 clear); simpl; repeat split; reflexivity.
Qed.

(** ** C8: creating an auction *)

(** C8 (amended): [createAuction(id, duration)] fails with AlreadyExists if
    the id is registered.  Otherwise, when now + duration fits a uint256, it
    registers the id with start = now, end = now + duration, active = true,
    the encrypted-zero handle and the zero address as highest bidder, and
    emits [AuctionCreated(id, start, end)]; when the sum overflows, the
    checked addition panics and nothing is written.  Every registered auction
    of a reachable state has start <= end. *)
Theorem createAuction_spec (fhe : FHE) (env : Env) (id : string)
    (duration : N) (s : Storage) :
  let r := transact fhe env (CreateAuction id duration) s in
  let now := block_timestamp env in
  (exists_at s id = true -> r = (s, Failed AlreadyExists)) /\
  (exists_at s id = false -> now + duration <= uint256_max ->
     r = (created fhe env id duration s,
          Success [AuctionCreated id now (now + duration)]) /\
     auction_at (created fhe env id duration s) id
       = mkAuction id now (now + duration) address0 (zero fhe 16) true /\
     exists_at (created fhe env id duration s) id = true /\
     bids (created fhe env id duration s) = bids s /\
     (forall id', id' <> id ->
        auction_at (created fhe env id duration s) id' = auction_at s id' /\
        exists_at (created fhe env id duration s) id' = exists_at s id')) /\
  (exists_at s id = false -> uint256_max < now + duration ->
     r = (s, Failed Overflow)) /\
  (reachable fhe s ->
     forall id', exists_at s id' = true ->
       startTime (auction_at s id') <= endTime (auction_at s id')).
Proof.
  simpl. rewrite transact_createAuction.
  split; [intros ->; reflexivity|].
  split; [|split].
  - intros -> Hfit. apply N.leb_le in Hfit. rewrite Hfit. simpl.
    rewrite auction_at_created, exists_at_created, !decide_True by reflexivity.
    repeat split; try reflexivity.
    + rewrite auction_at_created, decide_False by congruence. reflexivity.
    + rewrite exists_at_created, decide_False by congruence. reflexivity.
  - intros -> Hover. apply N.leb_gt in Hover. rewrite Hover. reflexivity.
  - intros Hreach id' Hex.
    destruct (reachable_consistent _ _ Hreach id') as [_ Hold].
    apply (Hold Hex).
Qed.

(** C8 as stated fails: for an unregistered id and a duration of 2^256 - 1 at
    time 1000, the call neither fails with AlreadyExists nor registers the
    auction: it reverts with the arithmetic-overflow panic. *)
Lemma createAuction_overflow_reverts :
  transact (host low32) (env_at seller 1000) (CreateAuction "nft-2" uint256_max)
    empty_storage = (empty_storage, Failed Overflow) /\
  ~ createAuction_as_stated (host low32) (env_at seller 1000) "nft-2"
      uint256_max empty_storage.
Proof.
  split; [vm_compute; reflexivity|].
  unfold createAuction_as_stated.
  change (exists_at empty_storage "nft-2") with false. simpl.
  intros H. vm_compute in H. discriminate H.
Qed.

(** ** C9: the ledger is append-only *)

Lemma view_getBidCount id s :
  view (getBidCount id) s =
  if exists_at s id then inr (N.of_nat (length (bids_at s id)))
  else inl NotFound.
Proof.
  unfold view, getBidCount. unfold_monad. simpl.
  destruct (exists_at s id); reflexivity.
Qed.

Lemma step_extends_ledger fhe s tx id :
  (exists_at s id = true -> exists_at (step fhe s tx) id = true) /\
  bids_at s id `prefix_of` bids_at (step fhe s tx) id.
Proof.
  revert s tx.
  apply (step_cases fhe (fun _ s s' =>
    (exists_at s id = true -> exists_at s' id = true) /\
    bids_at s id `prefix_of` bids_at s' id)).
  - intros _ s. split; [auto|reflexivity].
  - intros s env id0 d _ _. rewrite exists_at_created, bids_at_created.
    split; [|reflexivity]. destruct (decide (id0 = id)); auto.
  - intros s env id0 ct prf h _ _ _ _ _ _.
    rewrite exists_at_placed, bids_at_placed. split; [auto|].
    destruct (decide (id0 = id)) as [->|]; [|reflexivity].
    apply prefix_app_r. reflexivity.
  - intros s env id0 _ _ _. rewrite exists_at_concluded, bids_at_concluded.
    split; [auto|reflexivity].
Qed.

Lemma run_extends_ledger fhe id txs :
  forall s,
    (exists_at s id = true -> exists_at (run fhe txs s) id = true) /\
    bids_at s id `prefix_of` bids_at (run fhe txs s) id.
Proof.
  unfold run. induction txs as [|tx txs IH]; intros s; simpl.
  - split; [auto|reflexivity].
  - destruct (step_extends_ledger fhe s tx id) as [Hex Hpre].
    destruct (IH (step fhe s tx)) as [Hex' Hpre'].
    split; [auto|]. etransitivity; eassumption.
Qed.

(** C9: [placeBid] on a registered, active auction, inside its window and
    with an accepted, initialised ciphertext, succeeds and appends exactly one
    entry, the new bid, at the end of the ledger of its auction; whenever it
    succeeds it has done so, and it leaves the other ledgers untouched;
    [createAuction] and [concludeAuction] leave every ledger untouched.
    Hence, after any transaction and after any sequence of transactions, the
    previous ledger of every auction id is a prefix of the new one, and
    [getBidCount], once it answers, keeps answering with a count that does
    not decrease. *)
Theorem ledger_append_only (fhe : FHE) (env : Env) (c : Call) (s : Storage)
    (id : string) :
  let s' := fst (transact fhe env c s) in
  bids_at s id `prefix_of` bids_at s' id /\
  match c with
  | PlaceBid id0 ct prf =>
      (forall h,
         exists_at s id0 = true ->
         isActive (auction_at s id0) = true ->
         startTime (auction_at s id0) <= block_timestamp env ->
         block_timestamp env <= endTime (auction_at s id0) ->
         fromExternal fhe ct prf = Some h ->
         isInitialized fhe h = true ->
         snd (transact fhe env c s) = Success [BidPlaced id0 (msg_sender env)] /\
         bids_at s' id0 =
           bids_at s id0 ++ [mkBid (msg_sender env) h (block_timestamp env)] /\
         length (bids_at s' id0) = S (length (bids_at s id0))) /\
      (forall evs, snd (transact fhe env c s) = Success evs ->
        exists h, fromExternal fhe ct prf = Some h /\
          bids_at s' id0 =
            bids_at s id0 ++ [mkBid (msg_sender env) h (block_timestamp env)] /\
          (id <> id0 -> bids_at s' id = bids_at s id))
  | _ => bids s' = bids s
  end /\
  (forall txs, bids_at s id `prefix_of` bids_at (run fhe txs s) id) /\
  (forall txs n, view (getBidCount id) s = inr n ->
     exists n', view (getBidCount id) (run fhe txs s) = inr n' /\ n <= n').
Proof.
  simpl. split; [|split; [|split]].
  - apply (step_extends_ledger fhe s (env, c) id).
  - destruct c as [id0 d|id0 ct prf|id0 clear prf].
    + rewrite transact_createAuction.
      destruct (exists_at s id0); [reflexivity|].
      destruct (_ <=? _); reflexivity.
    + rewrite transact_placeBid. split.
      * intros h Hex Hact Hst Hen Hin Hinit.
        apply N.leb_le in Hst, Hen.
        rewrite Hex, Hact, Hst, Hen, Hin, Hinit. simpl.
        rewrite bids_at_placed, decide_True by reflexivity.
        split; [reflexivity|]. split; [reflexivity|].
        rewrite length_app. simpl. lia.
      * intros evs.
        destruct (negb (exists_at s id0)); [discriminate|].
        destruct (negb (isActive (auction_at s id0))); [discriminate|].
        destruct (negb (startTime (auction_at s id0) <=? _)); [discriminate|].
        destruct (negb (_ <=? endTime (auction_at s id0))); [discriminate|].
        destruct (fromExternal fhe ct prf) as [h|]; [|discriminate].
        destruct (isInitialized fhe h); [|discriminate].
        intros _. exists h. simpl. split; [reflexivity|].
        rewrite !bids_at_placed, decide_True by reflexivity.
        split; [reflexivity|]. intros Hne.
        rewrite decide_False by congruence. reflexivity.
    + rewrite transact_concludeAuction.
      destruct (negb (exists_at s id0)); [reflexivity|].
      destruct (negb (endTime (auction_at s id0) <? _)); [reflexivity|].
      destruct (negb (isActive (auction_at s id0))); [reflexivity|].
      destruct (negb (checkSignatures fhe _ clear prf)); [reflexivity|].
      destruct (abi_decode_uint32 clear); reflexivity.
  - intros txs. apply run_extends_ledger.
  - intros txs n. rewrite !view_getBidCount.
    destruct (run_extends_ledger fhe id txs s) as [Hex Hpre].
    destruct (exists_at s id); [|discriminate].
    rewrite (Hex eq_refl). intros [= <-].
    eexists. split; [reflexivity|].
    apply prefix_length in Hpre. lia.
Qed.

(** Alice's bid of 50 at 1100 on the freshly opened auction succeeds and is
    the one new entry of the ledger. *)
Lemma ledger_append_only_witness :
  snd (transact (host low32) (env_at alice 1100)
         (PlaceBid "nft-1" (handle_of 50) some_proof)
         (run (host low32) opening empty_storage))
    = Success [BidPlaced "nft-1" alice] /\
  bids_at
    (fst (transact (host low32) (env_at alice 1100)
            (PlaceBid "nft-1" (handle_of 50) some_proof)
            (run (host low32) opening empty_storage))) "nft-1"
    = bids_at (run (host low32) opening empty_storage) "nft-1"
      ++ [mkBid alice (handle_of 50) 1100] /\
  length
    (bids_at
       (fst (transact (host low32) (env_at alice 1100)
               (PlaceBid "nft-1" (handle_of 50) some_proof)
               (run (host low32) opening empty_storage))) "nft-1")
    = S (length (bids_at (run (host low32) opening empty_storage) "nft-1")).
Proof.
  pose proof (ledger_append_only (host low32) (env_at alice 1100)
                (PlaceBid "nft-1" (handle_of 50) some_proof)
                (run (host low32) opening empty_storage) "nft-1") as H.
  cbv beta iota zeta in H. destruct H as (_ & [Happend _] & _).
  apply (Happend (handle_of 50)).
  - vm_compute. reflexivity.
  - vm_compute. reflexivity.
  - vm_compute. discriminate.
  - vm_compute. discriminate.
  - vm_compute. reflexivity.
  - vm_compute. reflexivity.
Defined.

(** ** The scenarios of the design document, evaluated *)

(** Auction "nft-1" opened at 1000 for 3600 seconds; bids of 50, 80 and 30;
    concluded at 4700 with the proof for 80. *)
Example scenario_conclusion :
  snd (transact (host low32) (env_at seller 4700)
         (ConcludeAuction "nft-1" (abi_encode_uint32 80) some_proof)
         (run (host low32) three_bids empty_storage))
    = Success [AuctionConcluded "nft-1" bob 80] /\
  view (getBidCount "nft-1") (run (host low32) three_bids empty_storage) = inr 3.
Proof. split; vm_compute; reflexivity. Qed.

(** A bid at 5000, past the end 4600 of the still active auction, fails with
    Expired and the count is unchanged. *)
Example scenario_expired :
  transact (host low32) (env_at alice 5000)
    (PlaceBid "nft-1" (handle_of 90) some_proof)
    (run (host low32) three_bids empty_storage)
    = (run (host low32) three_bids empty_storage, Failed Expired) /\
  view (getBidCount "nft-1") (run (host low32) three_bids empty_storage) = inr 3.
Proof. split; vm_compute; reflexivity. Qed.

(** A proof for 81 does not match the stored handle, which holds 80. *)
Example scenario_wrong_proof :
  transact (host low32) (env_at seller 4700)
    (ConcludeAuction "nft-1" (abi_encode_uint32 81) some_proof)
    (run (host low32) three_bids empty_storage)
    = (run (host low32) three_bids empty_storage, Failed InvalidProof).
Proof. vm_compute. reflexivity. Qed.

(** Equal bids: the earlier bidder stays recorded. *)
Example scenario_tie :
  highestBidder
    (auction_at
       (run (host low32)
          (opening ++
           [(env_at alice 1100, PlaceBid "nft-1" (handle_of 70) some_proof);
            (env_at bob 1200, PlaceBid "nft-1" (handle_of 70) some_proof)])
          empty_storage) "nft-1") = alice.
Proof. vm_compute. reflexivity. Qed.

Example abi_uint32_roundtrip :
  abi_decode_uint32 (abi_encode_uint32 80) = Some 80 /\
  abi_decode_uint32 (abi_encode_uint32 uint32_max) = Some uint32_max /\
  abi_decode_uint32 (repeat "001"%byte 32) = None /\
  abi_decode_uint32 [] = None.
Proof. repeat split; vm_compute; reflexivity. Qed.

(** ** The read-only functions *)

Lemma view_getHighestBid id s :
  view (getHighestBid id) s =
  if exists_at s id then inr (highestBid (auction_at s id)) else inl NotFound.
Proof.
  unfold view, getHighestBid. unfold_monad. simpl.
  destruct (exists_at s id); reflexivity.
Qed.

Lemma view_getAuctionDetails id s :
  view (getAuctionDetails id) s =
  if exists_at s id
  then inr (nftId (auction_at s id), startTime (auction_at s id),
            endTime (auction_at s id), highestBidder (auction_at s id),
            isActive (auction_at s id))
  else inl NotFound.
Proof.
  unfold view, getAuctionDetails. unfold_monad. simpl.
  destruct (exists_at s id); simpl; [|reflexivity].
  destruct (auction_at s id); reflexivity.
Qed.

Lemma view_getBid id index s :
  view (getBid id index) s =
  if exists_at s id then
    match bids_at s id !! N.to_nat index with
    | Some b => inr (bidder b, encryptedBid b, timestamp b)
    | None => inl IndexOutOfRange
    end
  else inl NotFound.
Proof.
  unfold view, getBid. unfold_monad. simpl.
  destruct (exists_at s id); simpl; [|reflexivity].
  destruct (index <? N.of_nat (length (bids_at s id))) eqn:Hlt; simpl.
  - apply N.ltb_lt in Hlt.
    destruct (lookup_lt_is_Some_2 (bids_at s id) (N.to_nat index)) as [b ->];
      [lia|reflexivity].
  - apply N.ltb_ge in Hlt.
    rewrite (lookup_ge_None_2 (bids_at s id) (N.to_nat index)) by lia.
    reflexivity.
Qed.

(** X1: [getBid] checks its bounds.  On a registered id it returns the
    entry at [index] when [index] is below the bid count and reverts with
    "Invalid bid index" otherwise (in particular on an empty ledger); on an
    unregistered id it reverts with "Auction does not exist".  The array
    access itself never panics. *)
Theorem getBid_bounds (id : string) (index : N) (s : Storage) :
  (exists_at s id = false -> view (getBid id index) s = inl NotFound) /\
  (exists_at s id = true -> N.of_nat (length (bids_at s id)) <= index ->
     view (getBid id index) s = inl IndexOutOfRange) /\
  (exists_at s id = true -> index < N.of_nat (length (bids_at s id)) ->
     exists b, bids_at s id !! N.to_nat index = Some b /\
       view (getBid id index) s = inr (bidder b, encryptedBid b, timestamp b)) /\
  (forall code, view (getBid id index) s <> inl (Panic code)).
Proof.
  rewrite view_getBid. split; [intros ->; reflexivity|].
  split; [|split].
  - intros -> Hge.
    rewrite (lookup_ge_None_2 (bids_at s id) (N.to_nat index)) by lia.
    reflexivity.
  - intros -> Hlt.
    destruct (lookup_lt_is_Some_2 (bids_at s id) (N.to_nat index)) as [b Hb];
      [lia|].
    exists b. rewrite Hb. auto.
  - intros code. destruct (exists_at s id); [|discriminate].
    destruct (bids_at s id !! N.to_nat index); discriminate.
Qed.

(** X2: an answer of [getBid] is permanent.  Once [getBid(id, index)]
    returns an entry, it returns the same entry after any further
    transactions on any auction. *)
Theorem getBid_stable (fhe : FHE) (id : string) (index : N) (s : Storage)
    (txs : list Tx) (r : address * euint32 * N) :
  view (getBid id index) s = inr r ->
  view (getBid id index) (run fhe txs s) = inr r.
Proof.
  rewrite !view_getBid.
  destruct (run_extends_ledger fhe id txs s) as [Hex Hpre].
  destruct (exists_at s id); [|discriminate]. rewrite (Hex eq_refl).
  destruct (bids_at s id !! N.to_nat index) as [b|] eqn:Hb; [|discriminate].
  rewrite (prefix_lookup_Some _ _ _ _ Hb Hpre). auto.
Qed.

(** The first bid of the scenario is still entry 0 after the conclusion. *)
Lemma getBid_stable_witness :
  view (getBid "nft-1" 0)
    (run (host low32)
       [(env_at seller 4700,
         ConcludeAuction "nft-1" (abi_encode_uint32 80) some_proof)]
       (run (host low32) three_bids empty_storage))
  = inr (alice, handle_of 50, 1100).
Proof.
  apply getBid_stable. vm_compute. reflexivity.
Defined.

(** X3: a bid can be read back.  After a successful [placeBid] on [id],
    [getBidCount(id)] has grown by exactly one and [getBid] at the old count
    returns the sender, the ingested handle and the block timestamp. *)
Theorem placeBid_then_getBid (fhe : FHE) (env : Env) (id : string)
    (ct : externalEuint32) (prf : bytes) (s s' : Storage) (evs : list Event) :
  transact fhe env (PlaceBid id ct prf) s = (s', Success evs) ->
  exists h,
    fromExternal fhe ct prf = Some h /\
    view (getBidCount id) s = inr (N.of_nat (length (bids_at s id))) /\
    view (getBidCount id) s' = inr (N.of_nat (length (bids_at s id)) + 1) /\
    view (getBid id (N.of_nat (length (bids_at s id)))) s'
      = inr (msg_sender env, h, block_timestamp env).
Proof.
  rewrite transact_placeBid.
  destruct (exists_at s id) eqn:Hex; simpl; [|discriminate].
  destruct (negb (isActive (auction_at s id))); [discriminate|].
  destruct (negb (startTime (auction_at s id) <=? _)); [discriminate|].
  destruct (negb (_ <=? endTime (auction_at s id))); [discriminate|].
  destruct (fromExternal fhe ct prf) as [h|]; [|discriminate].
  destruct (isInitialized fhe h); [|discriminate].
  intros [= <- _]. exists h. split; [reflexivity|].
  rewrite !view_getBidCount, view_getBid, exists_at_placed, Hex,
    bids_at_placed, decide_True by reflexivity.
  split; [reflexivity|]. split.
  - rewrite length_app. simpl. f_equal. lia.
  - rewrite Nat2N.id, list_lookup_middle by reflexivity. reflexivity.
Qed.

(** Alice's bid of 50 right after the opening. *)
Lemma placeBid_then_getBid_witness :
  exists h,
    fromExternal (host low32) (handle_of 50) some_proof = Some h /\
    view (getBidCount "nft-1") (run (host low32) opening empty_storage)
      = inr (N.of_nat (length (bids_at (run (host low32) opening empty_storage)
                                 "nft-1"))) /\
    view (getBidCount "nft-1")
      (placed (host low32) (env_at alice 1100) "nft-1" (handle_of 50)
         (run (host low32) opening empty_storage))
      = inr (N.of_nat (length (bids_at (run (host low32) opening empty_storage)
                                 "nft-1")) + 1) /\
    view (getBid "nft-1"
            (N.of_nat (length (bids_at (run (host low32) opening empty_storage)
                                 "nft-1"))))
      (placed (host low32) (env_at alice 1100) "nft-1" (handle_of 50)
         (run (host low32) opening empty_storage))
      = inr (msg_sender (env_at alice 1100), h,
             block_timestamp (env_at alice 1100)).
Proof.
  apply (placeBid_then_getBid (host low32) (env_at alice 1100) "nft-1"
           (handle_of 50) some_proof _ _ [BidPlaced "nft-1" alice]).
  vm_compute. reflexivity.
Defined.

(** ** Invariants of the registry *)

Lemma reachable_step fhe s tx : reachable fhe s -> reachable fhe (step fhe s tx).
Proof.
  intros [txs <-]. exists (txs ++ [tx]). rewrite run_app. reflexivity.
Qed.

Lemma reachable_run fhe s txs : reachable fhe s -> reachable fhe (run fhe txs s).
Proof.
  intros [txs0 <-]. exists (txs0 ++ txs). apply run_app.
Qed.

(** Induction over the reachable states. *)
Lemma reachable_induction (fhe : FHE) (P : Storage -> Prop) :
  P empty_storage ->
  (forall s tx, reachable fhe s -> P s -> P (step fhe s tx)) ->
  forall s, reachable fhe s -> P s.
Proof.
  intros Hinit Hstep s [txs <-].
  induction txs as [|tx txs IH] using rev_ind; [exact Hinit|].
  rewrite run_app. apply (Hstep _ tx); [exists txs; reflexivity|exact IH].
Qed.

(** X4: a created auction reads back.  In a reachable state, after a
    successful [createAuction(id, duration)], [getAuctionDetails(id)] returns
    (id, now, now + duration, address(0), true), [getHighestBid(id)] returns
    the encrypted-zero handle and [getBidCount(id)] returns 0. *)
Theorem createAuction_then_views (fhe : FHE) (env : Env) (id : string)
    (duration : N) (s s' : Storage) (evs : list Event) :
  reachable fhe s ->
  transact fhe env (CreateAuction id duration) s = (s', Success evs) ->
  view (getAuctionDetails id) s'
    = inr (id, block_timestamp env, block_timestamp env + duration,
           address0, true) /\
  view (getHighestBid id) s' = inr (zero fhe 16) /\
  view (getBidCount id) s' = inr 0 /\
  view (getBid id 0) s' = inl IndexOutOfRange.
Proof.
  intros Hreach. rewrite transact_createAuction.
  destruct (exists_at s id) eqn:Hex; [discriminate|].
  destruct (_ <=? _); [|discriminate].
  intros [= <- _].
  destruct (unregistered_blank fhe s id Hreach Hex) as [Hnil _].
  rewrite view_getAuctionDetails, view_getHighestBid, view_getBidCount,
    view_getBid, exists_at_created, auction_at_created, bids_at_created,
    !decide_True, Hnil by reflexivity.
  repeat split.
Qed.

Lemma createAuction_then_views_witness :
  view (getAuctionDetails "nft-1")
    (created (host low32) (env_at seller 1000) "nft-1" 3600 empty_storage)
    = inr ("nft-1", block_timestamp (env_at seller 1000),
           block_timestamp (env_at seller 1000) + 3600, address0, true) /\
  view (getHighestBid "nft-1")
    (created (host low32) (env_at seller 1000) "nft-1" 3600 empty_storage)
    = inr (zero (host low32) 16) /\
  view (getBidCount "nft-1")
    (created (host low32) (env_at seller 1000) "nft-1" 3600 empty_storage)
    = inr 0 /\
  view (getBid "nft-1" 0)
    (created (host low32) (env_at seller 1000) "nft-1" 3600 empty_storage)
    = inl IndexOutOfRange.
Proof.
  apply (createAuction_then_views (host low32) (env_at seller 1000) "nft-1"
           3600 empty_storage _ [AuctionCreated "nft-1" 1000 4600]).
  - exists []. reflexivity.
  - vm_compute. reflexivity.
Defined.

(** X5: registration is permanent and the window is fixed.  Once an id is
    registered, after any further transactions it is still registered with
    the same name, start time and end time, and [createAuction] on it reverts
    with "Auction already exists" whatever the caller, time and duration. *)
Theorem registration_permanent (fhe : FHE) (id : string) (s : Storage)
    (txs : list Tx) (env : Env) (duration : N) :
  exists_at s id = true ->
  exists_at (run fhe txs s) id = true /\
  nftId (auction_at (run fhe txs s) id) = nftId (auction_at s id) /\
  startTime (auction_at (run fhe txs s) id) = startTime (auction_at s id) /\
  endTime (auction_at (run fhe txs s) id) = endTime (auction_at s id) /\
  transact fhe env (CreateAuction id duration) (run fhe txs s)
    = (run fhe txs s, Failed AlreadyExists).
Proof.
  intros Hex.
  assert (H : exists_at (run fhe txs s) id = true /\
              nftId (auction_at (run fhe txs s) id) = nftId (auction_at s id) /\
              startTime (auction_at (run fhe txs s) id) = startTime (auction_at s id) /\
              endTime (auction_at (run fhe txs s) id) = endTime (auction_at s id)).
  { apply (run_preserves fhe (fun s' =>
      exists_at s' id = true /\
      nftId (auction_at s' id) = nftId (auction_at s id) /\
      startTime (auction_at s' id) = startTime (auction_at s id) /\
      endTime (auction_at s' id) = endTime (auction_at s id))); [|auto].
    intros s0 tx. revert s0 tx.
    apply (step_cases fhe (fun _ s0 s' =>
      exists_at s0 id = true /\
      nftId (auction_at s0 id) = nftId (auction_at s id) /\
      startTime (auction_at s0 id) = startTime (auction_at s id) /\
      endTime (auction_at s0 id) = endTime (auction_at s id) ->
      exists_at s' id = true /\
      nftId (auction_at s' id) = nftId (auction_at s id) /\
      startTime (auction_at s' id) = startTime (auction_at s id) /\
      endTime (auction_at s' id) = endTime (auction_at s id))).
    - auto.
    - intros s0 env0 id0 d Hnew _ (Hex0 & Hrest).
      rewrite exists_at_created, auction_at_created.
      destruct (decide (id0 = id)) as [->|]; [congruence|auto].
    - intros s0 env0 id0 ct prf h _ _ _ _ _ _ (Hex0 & Hn & Hs & He).
      rewrite exists_at_placed, auction_at_placed.
      destruct (decide (id0 = id)) as [->|]; [|auto].
      destruct (gt fhe h _); auto.
    - intros s0 env0 id0 _ _ _ (Hex0 & Hn & Hs & He).
      rewrite exists_at_concluded, auction_at_concluded.
      destruct (decide (id0 = id)) as [->|]; auto. }
  destruct H as (Hex' & Hn & Hs & He).
  repeat (split; [assumption|]).
  rewrite transact_createAuction, Hex'. reflexivity.
Qed.

(** After the whole scenario, "nft-1" cannot be created again. *)
Lemma registration_permanent_witness :
  transact (host low32) (env_at carol 9000) (CreateAuction "nft-1" 10)
    (run (host low32) three_bids_concluded (run (host low32) opening empty_storage))
  = (run (host low32) three_bids_concluded (run (host low32) opening empty_storage),
     Failed AlreadyExists).
Proof.
  refine (proj2 (proj2 (proj2 (proj2
    (registration_permanent (host low32) "nft-1"
       (run (host low32) opening empty_storage) three_bids_concluded
       (env_at carol 9000) 10 _))))).
  vm_compute. reflexivity.
Defined.

(** The record of a registered auction carries its own key as name. *)
Lemma registered_name fhe s id :
  reachable fhe s -> exists_at s id = true -> nftId (auction_at s id) = id.
Proof.
  intros Hreach. revert id.
  apply (reachable_induction fhe (fun s => forall id,
    exists_at s id = true -> nftId (auction_at s id) = id));
    [discriminate| |exact Hreach].
  intros s0 tx _. revert s0 tx.
  apply (step_cases fhe (fun _ s0 s' =>
    (forall id, exists_at s0 id = true -> nftId (auction_at s0 id) = id) ->
    forall id, exists_at s' id = true -> nftId (auction_at s' id) = id)).
  - auto.
  - intros s0 e i d _ _ IH0 j.
    rewrite exists_at_created, auction_at_created.
    destruct (decide (i = j)) as [->|]; [reflexivity|apply IH0].
  - intros s0 e i c p h0 _ _ _ _ _ _ IH0 j.
    rewrite exists_at_placed, auction_at_placed.
    destruct (decide (i = j)) as [->|]; [|apply IH0].
    destruct (gt fhe h0 _); apply IH0.
  - intros s0 e i _ _ _ IH0 j.
    rewrite exists_at_concluded, auction_at_concluded.
    destruct (decide (i = j)) as [->|]; apply IH0.
Qed.

(** X6: the entries of a ledger were accepted inside the window.  In every
    reachable state, each entry of the ledger of an id belongs to a
    registered auction named [id], carries a timestamp between the start and
    the end time of that auction, and holds a handle that the FHE library
    reports as initialised. *)
Theorem ledger_entries_in_window (fhe : FHE) (s : Storage) (id : string)
    (b : Bid) :
  reachable fhe s ->
  b ∈ bids_at s id ->
  exists_at s id = true /\
  nftId (auction_at s id) = id /\
  startTime (auction_at s id) <= timestamp b /\
  timestamp b <= endTime (auction_at s id) /\
  isInitialized fhe (encryptedBid b) = true.
Proof.
  intros Hreach. revert s Hreach id b.
  apply (reachable_induction fhe (fun s => forall id b,
    b ∈ bids_at s id ->
    exists_at s id = true /\ nftId (auction_at s id) = id /\
    startTime (auction_at s id) <= timestamp b /\
    timestamp b <= endTime (auction_at s id) /\
    isInitialized fhe (encryptedBid b) = true)).
  - intros id b Hb. inversion Hb.
  - intros s tx Hreach. revert s tx Hreach.
    apply (step_cases fhe (fun _ s s' =>
      reachable fhe s ->
      (forall id b, b ∈ bids_at s id ->
         exists_at s id = true /\ nftId (auction_at s id) = id /\
         startTime (auction_at s id) <= timestamp b /\
         timestamp b <= endTime (auction_at s id) /\
         isInitialized fhe (encryptedBid b) = true) ->
      forall id b, b ∈ bids_at s' id ->
         exists_at s' id = true /\ nftId (auction_at s' id) = id /\
         startTime (auction_at s' id) <= timestamp b /\
         timestamp b <= endTime (auction_at s' id) /\
         isInitialized fhe (encryptedBid b) = true)).
    + auto.
    + intros s env id0 d Hnew _ Hreach IH id b.
      rewrite bids_at_created, exists_at_created, auction_at_created.
      destruct (decide (id0 = id)) as [->|]; [|apply IH].
      destruct (unregistered_blank fhe s id Hreach Hnew) as [-> _].
      intros Hb. inversion Hb.
    + intros s env id0 ct prf h Hex Hact Hst Hen Hin Hinit Hreach IH id b.
      rewrite bids_at_placed, exists_at_placed, auction_at_placed.
      destruct (decide (id0 = id)) as [->|]; [|apply IH].
      pose proof (registered_name fhe s id Hreach Hex) as Hname.
      intros Hb. apply elem_of_app in Hb as [Hb|Hb].
      * destruct (IH id b Hb) as (_ & _ & H1 & H2 & H3).
        destruct (gt fhe h _); simpl; auto.
      * apply list_elem_of_singleton in Hb as ->. simpl.
        destruct (gt fhe h _); simpl; auto.
    + intros s env id0 Hex Hact Hen Hreach IH id b.
      rewrite bids_at_concluded, exists_at_concluded, auction_at_concluded.
      destruct (decide (id0 = id)) as [->|]; [|apply IH].
      intros Hb. destruct (IH id b Hb) as (H0 & H1 & H2 & H3 & H4). simpl. auto.
Qed.

(** Bob's bid in the scenario. *)
Lemma ledger_entries_in_window_witness :
  exists_at (run (host low32) three_bids empty_storage) "nft-1" = true /\
  nftId (auction_at (run (host low32) three_bids empty_storage) "nft-1") = "nft-1" /\
  startTime (auction_at (run (host low32) three_bids empty_storage) "nft-1")
    <= timestamp (mkBid bob (handle_of 80) 1200) /\
  timestamp (mkBid bob (handle_of 80) 1200)
    <= endTime (auction_at (run (host low32) three_bids empty_storage) "nft-1") /\
  isInitialized (host low32) (encryptedBid (mkBid bob (handle_of 80) 1200)) = true.
Proof.
  apply (ledger_entries_in_window (host low32)).
  - exists three_bids. reflexivity.
  - vm_compute. apply list_elem_of_further, list_elem_of_here.
Defined.

(** X7: auctions do not interfere.  A transaction addressed to one id,
    whether it succeeds or reverts, leaves the record, the ledger and the
    registration flag of every other id as they were. *)
Theorem other_auctions_untouched (fhe : FHE) (env : Env) (c : Call)
    (s : Storage) (id : string) :
  call_id c <> id ->
  auction_at (fst (transact fhe env c s)) id = auction_at s id /\
  bids_at (fst (transact fhe env c s)) id = bids_at s id /\
  exists_at (fst (transact fhe env c s)) id = exists_at s id.
Proof.
  intros Hne.
  destruct c as [id0 d|id0 ct prf|id0 clear prf]; simpl in Hne.
  - rewrite transact_createAuction.
    destruct (exists_at s id0); [auto|].
    destruct (_ <=? _); [|auto]. simpl.
    rewrite auction_at_created, exists_at_created, bids_at_created,
      !decide_False by assumption. auto.
  - rewrite transact_placeBid.
    destruct (negb (exists_at s id0)); [auto|].
    destruct (negb (isActive (auction_at s id0))); [auto|].
    destruct (negb (startTime (auction_at s id0) <=? _)); [auto|].
    destruct (negb (_ <=? endTime (auction_at s id0))); [auto|].
    destruct (fromExternal fhe ct prf) as [h|]; [|auto].
    destruct (isInitialized fhe h); [|auto]. simpl.
    rewrite auction_at_placed, exists_at_placed, bids_at_placed,
      !decide_False by assumption. auto.
  - rewrite transact_concludeAuction.
    destruct (negb (exists_at s id0)); [auto|].
    destruct (negb (endTime (auction_at s id0) <? _)); [auto|].
    destruct (negb (isActive (auction_at s id0))); [auto|].
    destruct (negb (checkSignatures fhe _ clear prf)); [auto|].
    destruct (abi_decode_uint32 clear); [|auto]. simpl.
    rewrite auction_at_concluded, exists_at_concluded, bids_at_concluded,
      decide_False by assumption. auto.
Qed.

(** Creating "nft-2" during the scenario does not touch "nft-1". *)
Lemma other_auctions_untouched_witness :
  auction_at
    (fst (transact (host low32) (env_at seller 1250) (CreateAuction "nft-2" 60)
            (run (host low32) three_bids empty_storage))) "nft-1"
    = auction_at (run (host low32) three_bids empty_storage) "nft-1" /\
  bids_at
    (fst (transact (host low32) (env_at seller 1250) (CreateAuction "nft-2" 60)
            (run (host low32) three_bids empty_storage))) "nft-1"
    = bids_at (run (host low32) three_bids empty_storage) "nft-1" /\
  exists_at
    (fst (transact (host low32) (env_at seller 1250) (CreateAuction "nft-2" 60)
            (run (host low32) three_bids empty_storage))) "nft-1"
    = exists_at (run (host low32) three_bids empty_storage) "nft-1".
Proof.
  apply other_auctions_untouched. simpl. discriminate.
Defined.

(** ** The stored pair and the ledger *)

Lemma leader_from_ledger fhe start l :
  leader fhe start l = start \/
  exists b, b ∈ l /\ leader fhe start l = (encryptedBid b, bidder b).
Proof.
  induction l as [|b l IH] using rev_ind; [left; reflexivity|].
  rewrite leader_snoc. destruct (gt fhe _ _).
  - right. exists b. split; [|reflexivity].
    apply elem_of_app. right. apply list_elem_of_here.
  - destruct IH as [IH|(b0 & Hb0 & IH)]; [left; exact IH|].
    right. exists b0. split; [|exact IH].
    apply elem_of_app. left. exact Hb0.
Qed.

(** X8: the recorded highest bid is a real bid.  In every reachable state
    and for every FHE host, the highest-bid handle and highest bidder of a
    registered auction are either the initial pair (encrypted zero, zero
    address) or the handle and the bidder of one and the same entry of the
    auction's ledger. *)
Theorem highest_pair_from_ledger (fhe : FHE) (s : Storage) (id : string) :
  reachable fhe s ->
  exists_at s id = true ->
  (highestBid (auction_at s id) = zero fhe 16 /\
   highestBidder (auction_at s id) = address0) \/
  (exists b, b ∈ bids_at s id /\
     highestBid (auction_at s id) = encryptedBid b /\
     highestBidder (auction_at s id) = bidder b).
Proof.
  intros Hreach Hex.
  destruct (reachable_consistent _ _ Hreach id) as [_ Hold].
  destruct (Hold Hex) as [Hlead _].
  destruct (leader_from_ledger fhe (zero fhe 16, address0) (bids_at s id))
    as [Hstart|(b & Hb & Hpair)].
  - left. rewrite Hstart in Hlead. injection Hlead as -> ->. auto.
  - right. exists b. rewrite Hpair in Hlead. injection Hlead as -> ->. auto.
Qed.

Lemma highest_pair_from_ledger_witness :
  (highestBid (auction_at (run (host low32) three_bids empty_storage) "nft-1")
     = zero (host low32) 16 /\
   highestBidder (auction_at (run (host low32) three_bids empty_storage) "nft-1")
     = address0) \/
  (exists b, b ∈ bids_at (run (host low32) three_bids empty_storage) "nft-1" /\
     highestBid (auction_at (run (host low32) three_bids empty_storage) "nft-1")
       = encryptedBid b /\
     highestBidder (auction_at (run (host low32) three_bids empty_storage) "nft-1")
       = bidder b).
Proof.
  apply highest_pair_from_ledger.
  - exists three_bids. reflexivity.
  - vm_compute. reflexivity.
Defined.

Lemma max_plain_prefix plain l1 l2 :
  l1 `prefix_of` l2 -> max_plain plain l1 <= max_plain plain l2.
Proof.
  intros [k ->]. unfold max_plain.
  induction l1 as [|a l1 IH]; simpl; lia.
Qed.

(** X9: the highest bid never decreases.  Under the plaintext semantics of
    [FHE.gt], the plaintext behind the stored highest-bid handle of a
    registered auction after any further transactions is at least what it
    was before. *)
Theorem highest_plaintext_monotone (fhe : FHE) (plain : euint32 -> N)
    (s : Storage) (txs : list Tx) (id : string) :
  (forall a b, gt fhe a b = (plain b <? plain a)) ->
  plain (zero fhe 16) = 0 ->
  reachable fhe s ->
  exists_at s id = true ->
  plain (highestBid (auction_at s id))
    <= plain (highestBid (auction_at (run fhe txs s) id)).
Proof.
  intros Hgt Hzero Hreach Hex.
  destruct (run_extends_ledger fhe id txs s) as [Hex' Hpre].
  destruct (stored_pair_first_max fhe plain s id Hgt Hzero Hreach Hex)
    as (-> & _).
  destruct (stored_pair_first_max fhe plain (run fhe txs s) id Hgt Hzero
              (reachable_run fhe s txs Hreach) (Hex' Hex)) as (-> & _).
  apply max_plain_prefix, Hpre.
Qed.

(** From the opening (plaintext 0) through the three bids (plaintext 80). *)
Lemma highest_plaintext_monotone_witness :
  low32 (highestBid (auction_at (run (host low32) opening empty_storage) "nft-1"))
    <= low32 (highestBid
                (auction_at
                   (run (host low32)
                      [(env_at alice 1100, PlaceBid "nft-1" (handle_of 50) some_proof);
                       (env_at bob 1200, PlaceBid "nft-1" (handle_of 80) some_proof);
                       (env_at carol 1300, PlaceBid "nft-1" (handle_of 30) some_proof)]
                      (run (host low32) opening empty_storage)) "nft-1")).
Proof.
  apply (highest_plaintext_monotone (host low32) low32).
  - intros a b. reflexivity.
  - vm_compute. reflexivity.
  - exists opening. reflexivity.
  - vm_compute. reflexivity.
Defined.

(** ** Bidding against concluding *)



(** ** What a conclusion announces *)

(** X11: the announced amount is a uint32 read from the first word.  When
    [concludeAuction] succeeds, the clear bytes are at least 32 bytes long
    and the announced winning bid is the big-endian value of their first 32
    bytes, which is at most 2^32 - 1; with fewer than 32 clear bytes the call
    never succeeds. *)
Theorem concluded_amount_is_uint32 (fhe : FHE) (env : Env) (id : string)
    (clear prf : bytes) (s s' : Storage) (w : address) (v : N) :
  transact fhe env (ConcludeAuction id clear prf) s
    = (s', Success [AuctionConcluded id w v]) ->
  32 <= N.of_nat (length clear) /\
  v = be_word (take 32 clear) /\
  v <= uint32_max.
Proof.
  rewrite transact_concludeAuction.
  destruct (negb (exists_at s id)); [discriminate|].
  destruct (negb (endTime (auction_at s id) <? _)); [discriminate|].
  destruct (negb (isActive (auction_at s id))); [discriminate|].
  destruct (negb (checkSignatures fhe _ clear prf)); [discriminate|].
  unfold abi_decode_uint32.
  destruct (N.of_nat (length clear) <? 32) eqn:Hlen; [discriminate|].
  destruct (be_word (take 32 clear) <=? uint32_max) eqn:Hfit; [|discriminate].
  intros [= _ _ <-].
  apply N.ltb_ge in Hlen. apply N.leb_le in Hfit. auto.
Qed.

Lemma concluded_amount_is_uint32_witness :
  32 <= N.of_nat (length (abi_encode_uint32 80)) /\
  80 = be_word (take 32 (abi_encode_uint32 80)) /\
  80 <= uint32_max.
Proof.
  apply (concluded_amount_is_uint32 (host low32) (env_at seller 4700) "nft-1"
           (abi_encode_uint32 80) some_proof
           (run (host low32) three_bids empty_storage)
           (concluded "nft-1" (run (host low32) three_bids empty_storage)) bob 80).
  vm_compute. reflexivity.
Defined.

(** X12: the reveal is the maximum.  Under the plaintext semantics of
    [FHE.gt] and a decryption check that only accepts clear bytes decoding to
    the plaintext of the handle, a successful [concludeAuction] in a
    reachable state announces the maximal plaintext over the accepted bids;
    the announced winner is the first bidder to have bid it when it is
    positive, and the zero address when it is zero. *)
Theorem conclusion_reveals_maximum (fhe : FHE) (plain : euint32 -> N)
    (env : Env) (id : string) (clear prf : bytes) (s s' : Storage)
    (w : address) (v : N) :
  (forall a b, gt fhe a b = (plain b <? plain a)) ->
  plain (zero fhe 16) = 0 ->
  (forall h c p, checkSignatures fhe [toBytes32 fhe h] c p = true ->
                 abi_decode_uint32 c = Some (plain h)) ->
  reachable fhe s ->
  transact fhe env (ConcludeAuction id clear prf) s
    = (s', Success [AuctionConcluded id w v]) ->
  v = max_plain plain (bids_at s id) /\
  (0 < v -> exists b, first_reaching plain v (bids_at s id) = Some b /\
                      w = bidder b) /\
  (v = 0 -> w = address0).
Proof.
  intros Hgt Hzero Hsound Hreach.
  rewrite transact_concludeAuction.
  destruct (exists_at s id) eqn:Hex; simpl; [|discriminate].
  destruct (negb (endTime (auction_at s id) <? _)); [discriminate|].
  destruct (negb (isActive (auction_at s id))); [discriminate|].
  destruct (checkSignatures fhe _ clear prf) eqn:Hsig; simpl; [|discriminate].
  rewrite (Hsound _ _ _ Hsig).
  intros [= _ <- <-].
  destruct (stored_pair_first_max fhe plain s id Hgt Hzero Hreach Hex)
    as (Hval & Hnone & Hsome).
  rewrite Hval. split; [reflexivity|]. split; [|exact Hnone].
  intros Hpos. destruct (Hsome Hpos) as (b & Hb & _ & Hw).
  exists b. auto.
Qed.

Lemma host_decryption_sound plain h c p :
  checkSignatures (host plain) [toBytes32 (host plain) h] c p = true ->
  abi_decode_uint32 c = Some (plain h).
Proof.
  simpl. destruct (abi_decode_uint32 c) as [v|]; [|discriminate].
  intros H. apply andb_prop in H as [_ H]. apply N.eqb_eq in H. congruence.
Qed.

(** The scenario: 80 is announced, which is the maximum of 50, 80 and 30. *)
Lemma conclusion_reveals_maximum_witness :
  80 = max_plain low32 (bids_at (run (host low32) three_bids empty_storage) "nft-1") /\
  (0 < 80 ->
   exists b,
     first_reaching low32 80
       (bids_at (run (host low32) three_bids empty_storage) "nft-1") = Some b /\
     bob = bidder b) /\
  (80 = 0 -> bob = address0).
Proof.
  apply (conclusion_reveals_maximum (host low32) low32 (env_at seller 4700)
           "nft-1" (abi_encode_uint32 80) some_proof
           (run (host low32) three_bids empty_storage)
           (concluded "nft-1" (run (host low32) three_bids empty_storage))).
  - intros a b. reflexivity.
  - vm_compute. reflexivity.
  - apply host_decryption_sound.
  - exists three_bids. reflexivity.
  - vm_compute. reflexivity.
Defined.

(** ** Time along the ledger *)

Lemma chronological_snoc l b t :
  chronological l ->
  (forall a, a ∈ l -> timestamp a <= t) ->
  t <= timestamp b ->
  chronological (l ++ [b]).
Proof.
  intros Hl Hbound Hb i j bi bj Hi Hj Hij.
  apply lookup_snoc_Some in Hi as [[Hil Hi]|[Hil <-]];
    apply lookup_snoc_Some in Hj as [[Hjl Hj]|[Hjl <-]].
  - eapply Hl; eassumption.
  - apply list_elem_of_lookup_2 in Hi. specialize (Hbound _ Hi). lia.
  - lia.
  - lia.
Qed.

Lemma clock_run fhe txs :
  forall t s,
    (forall id, chronological (bids_at s id) /\
                forall a, a ∈ bids_at s id -> timestamp a <= t) ->
    clock_from t txs ->
    forall id, chronological (bids_at (run fhe txs s) id).
Proof.
  unfold run. induction txs as [|tx txs IH]; intros t s Hs Hclock id; simpl.
  - apply Hs.
  - destruct Hclock as [Hle Hclock].
    apply (IH (block_timestamp (fst tx))); [|exact Hclock].
    clear IH Hclock id. revert t Hs Hle. revert s tx.
    apply (step_cases fhe (fun env s s' => forall t,
      (forall id, chronological (bids_at s id) /\
                  forall a, a ∈ bids_at s id -> timestamp a <= t) ->
      t <= block_timestamp env ->
      forall id, chronological (bids_at s' id) /\
                 forall a, a ∈ bids_at s' id -> timestamp a <= block_timestamp env)).
    + intros env s t Hs Hle id. destruct (Hs id) as [Hc Hb].
      split; [exact Hc|]. intros a Ha. specialize (Hb a Ha). lia.
    + intros s env id0 d _ _ t Hs Hle id. rewrite bids_at_created.
      destruct (Hs id) as [Hc Hb].
      split; [exact Hc|]. intros a Ha. specialize (Hb a Ha). lia.
    + intros s env id0 ct prf h _ _ _ _ _ _ t Hs Hle id.
      rewrite bids_at_placed. destruct (Hs id) as [Hc Hb].
      destruct (decide (id0 = id)) as [->|].
      * split.
        -- apply (chronological_snoc _ _ t); [exact Hc|exact Hb|exact Hle].
        -- intros a Ha. apply elem_of_app in Ha as [Ha|Ha].
           ++ specialize (Hb a Ha). lia.
           ++ apply list_elem_of_singleton in Ha as ->. simpl. lia.
      * split; [exact Hc|]. intros a Ha. specialize (Hb a Ha). lia.
    + intros s env id0 _ _ _ t Hs Hle id. rewrite bids_at_concluded.
      destruct (Hs id) as [Hc Hb].
      split; [exact Hc|]. intros a Ha. specialize (Hb a Ha). lia.
Qed.

(** X13: the ledger is chronological.  When block timestamps do not
    decrease along the transactions, the entries of every ledger appear in
    the order of their timestamps: an earlier index never carries a later
    timestamp. *)
Theorem ledger_chronological (fhe : FHE) (txs : list Tx) (id : string) :
  clock_from 0 txs ->
  chronological (bids_at (run fhe txs empty_storage) id).
Proof.
  intros Hclock. apply (clock_run fhe txs 0 empty_storage); [|exact Hclock].
  intros i. split.
  - intros a b bi bj Ha. discriminate Ha.
  - intros a Ha. inversion Ha.
Qed.

Lemma ledger_chronological_witness :
  chronological (bids_at (run (host low32) three_bids empty_storage) "nft-1").
Proof.
  apply ledger_chronological. vm_compute. repeat split; discriminate.
Defined.

(** ** Access-control grants *)

Lemma grants_of_createAuction fhe env id d s :
  grants_of fhe env (CreateAuction id d) s = [].
Proof.
  unfold grants_of, dispatch, createAuction. unfold_monad. simpl.
  destruct (exists_at s id); simpl; [reflexivity|].
  destruct (_ <=? _); reflexivity.
Qed.

Lemma grants_of_concludeAuction fhe env id clear prf s :
  grants_of fhe env (ConcludeAuction id clear prf) s = [].
Proof.
  unfold grants_of, dispatch, concludeAuction. unfold_monad. simpl.
  destruct (exists_at s id); simpl; [|reflexivity].
  destruct (endTime (auction_at s id) <? _); simpl; [|reflexivity].
  destruct (isActive (auction_at s id)); simpl; [|reflexivity].
  destruct (checkSignatures fhe _ clear prf); simpl; [|reflexivity].
  destruct (abi_decode_uint32 clear); reflexivity.
Qed.

Lemma grants_of_placeBid fhe env id ct prf s :
  grants_of fhe env (PlaceBid id ct prf) s =
  if negb (exists_at s id) then []
  else if negb (isActive (auction_at s id)) then []
  else if negb (startTime (auction_at s id) <=? block_timestamp env) then []
  else if negb (block_timestamp env <=? endTime (auction_at s id)) then []
  else match fromExternal fhe ct prf with
       | None => []
       | Some h =>
           if isInitialized fhe h
           then [AllowThis h (this env); PubliclyDecryptable h]
           else []
       end.
Proof.
  unfold grants_of, dispatch, placeBid. unfold_monad. simpl.
  destruct (exists_at s id); simpl; [|reflexivity].
  destruct (isActive (auction_at s id)); simpl; [|reflexivity].
  destruct (startTime (auction_at s id) <=? _); simpl; [|reflexivity].
  destruct (_ <=? endTime (auction_at s id)); simpl; [|reflexivity].
  destruct (fromExternal fhe ct prf) as [h|]; simpl; [|reflexivity].
  destruct (isInitialized fhe h); simpl; [|reflexivity].
  destruct (gt fhe h _); reflexivity.
Qed.

(** One transaction: a new ledger entry comes with its grant, and a grant
    comes with a ledger entry. *)
Lemma step_grants fhe s tx :
  (forall id b, b ∈ bids_at (step fhe s tx) id ->
     b ∈ bids_at s id \/
     PubliclyDecryptable (encryptedBid b) ∈ grants_of fhe (fst tx) (snd tx) s) /\
  (forall g, g ∈ grants_of fhe (fst tx) (snd tx) s ->
     exists id b, b ∈ bids_at (step fhe s tx) id /\
                  granted_handle g = encryptedBid b).
Proof.
  destruct tx as [env [id0 d|id0 ct prf|id0 clear prf]]; unfold step; simpl.
  - rewrite grants_of_createAuction, transact_createAuction. split.
    + intros id b. destruct (exists_at s id0); [auto|].
      destruct (_ <=? _); simpl; auto.
    + intros g Hg. inversion Hg.
  - rewrite grants_of_placeBid, transact_placeBid.
    destruct (negb (exists_at s id0)); [split; [auto|intros g Hg; inversion Hg]|].
    destruct (negb (isActive (auction_at s id0)));
      [split; [auto|intros g Hg; inversion Hg]|].
    destruct (negb (startTime (auction_at s id0) <=? _));
      [split; [auto|intros g Hg; inversion Hg]|].
    destruct (negb (_ <=? endTime (auction_at s id0)));
      [split; [auto|intros g Hg; inversion Hg]|].
    destruct (fromExternal fhe ct prf) as [h|];
      [|split; [auto|intros g Hg; inversion Hg]].
    destruct (isInitialized fhe h); [|split; [auto|intros g Hg; inversion Hg]].
    simpl. split.
    + intros id b. rewrite bids_at_placed.
      destruct (decide (id0 = id)) as [->|]; [|auto].
      intros Hb. apply elem_of_app in Hb as [Hb|Hb]; [auto|].
      apply list_elem_of_singleton in Hb as ->. right. simpl.
      apply list_elem_of_further, list_elem_of_here.
    + intros g Hg.
      exists id0, (mkBid (msg_sender env) h (block_timestamp env)).
      rewrite bids_at_placed, decide_True by reflexivity.
      split; [apply elem_of_app; right; apply list_elem_of_here|].
      apply elem_of_cons in Hg as [->|Hg]; [reflexivity|].
      apply list_elem_of_singleton in Hg as ->. reflexivity.
  - rewrite grants_of_concludeAuction, transact_concludeAuction. split.
    + intros id b.
      destruct (negb (exists_at s id0)); [auto|].
      destruct (negb (endTime (auction_at s id0) <? _)); [auto|].
      destruct (negb (isActive (auction_at s id0))); [auto|].
      destruct (negb (checkSignatures fhe _ clear prf)); [auto|].
      destruct (abi_decode_uint32 clear); simpl; auto.
    + intros g Hg. inversion Hg.
Qed.

Lemma run_grants_sound fhe txs :
  forall s,
    (forall id b, b ∈ bids_at (run fhe txs s) id ->
       b ∈ bids_at s id \/
       PubliclyDecryptable (encryptedBid b) ∈ run_grants fhe txs s) /\
    (forall g, g ∈ run_grants fhe txs s ->
       exists id b, b ∈ bids_at (run fhe txs s) id /\
                    granted_handle g = encryptedBid b).
Proof.
  induction txs as [|tx txs IH]; intros s; simpl.
  - split; [auto|]. intros g Hg. inversion Hg.
  - destruct (step_grants fhe s tx) as [Hnew Hold].
    destruct (IH (step fhe s tx)) as [IHnew IHold].
    change (run fhe (tx :: txs) s) with (run fhe txs (step fhe s tx)).
    split.
    + intros id b Hb. destruct (IHnew id b Hb) as [Hb'|Hg].
      * destruct (Hnew id b Hb') as [?|Hg]; [auto|].
        right. apply elem_of_app. auto.
      * right. apply elem_of_app. auto.
    + intros g Hg. apply elem_of_app in Hg as [Hg|Hg]; [|apply IHold, Hg].
      destruct (Hold g Hg) as (id & b & Hb & Hh).
      exists id, b. split; [|exact Hh].
      destruct (run_extends_ledger fhe id txs (step fhe s tx)) as [_ [k ->]].
      apply elem_of_app. auto.
Qed.

(** X14: exactly the accepted bids are made decryptable.  Over any run from
    the empty storage, the handle of every ledger entry has been granted
    public decryptability by the contract, and every grant the contract
    issued (allowThis or makePubliclyDecryptable) is for the handle of a
    ledger entry; [createAuction] and [concludeAuction] issue no grant, so
    the encrypted-zero handle that [createAuction] stores is granted only
    when some accepted bid carries that same handle. *)
Theorem grants_match_ledger (fhe : FHE) (txs : list Tx) :
  (forall id b, b ∈ bids_at (run fhe txs empty_storage) id ->
     PubliclyDecryptable (encryptedBid b) ∈ run_grants fhe txs empty_storage) /\
  (forall g, g ∈ run_grants fhe txs empty_storage ->
     exists id b, b ∈ bids_at (run fhe txs empty_storage) id /\
                  granted_handle g = encryptedBid b) /\
  (forall env id d s, grants_of fhe env (CreateAuction id d) s = []) /\
  (forall env id clear prf s,
     grants_of fhe env (ConcludeAuction id clear prf) s = []) /\
  (PubliclyDecryptable (zero fhe 16) ∈ run_grants fhe txs empty_storage ->
     exists id b, b ∈ bids_at (run fhe txs empty_storage) id /\
                  encryptedBid b = zero fhe 16).
Proof.
  destruct (run_grants_sound fhe txs empty_storage) as [Hnew Hold].
  split; [|split; [exact Hold|split; [|split]]].
  - intros id b Hb. destruct (Hnew id b Hb) as [Hb'|Hg]; [inversion Hb'|exact Hg].
  - intros. apply grants_of_createAuction.
  - intros. apply grants_of_concludeAuction.
  - intros Hg. destruct (Hold _ Hg) as (id & b & Hb & Hh).
    exists id, b. split; [exact Hb|]. symmetry. exact Hh.
Qed.

(** On the reference host a bid of plaintext 0 carries the encrypted-zero
    handle itself, which is then granted; without such a bid it is not. *)
Example scenario_zero_handle_grants :
  (PubliclyDecryptable (zero (host low32) 16)
     ∈ run_grants (host low32) zero_bid empty_storage) /\
  (PubliclyDecryptable (zero (host low32) 16)
     ∉ run_grants (host low32) three_bids_concluded empty_storage) /\
  run_grants (host low32) empty_concluded empty_storage = [].
Proof.
  split; [|split].
  - vm_compute. apply list_elem_of_further, list_elem_of_here.
  - intros H. vm_compute in H.
    repeat (apply elem_of_cons in H as [H|H]; [discriminate H|]).
    inversion H.
  - vm_compute. reflexivity.
Qed.

Example scenario_grants :
  run_grants (host low32) three_bids_concluded empty_storage =
  [AllowThis (handle_of 50) 4096; PubliclyDecryptable (handle_of 50);
   AllowThis (handle_of 80) 4096; PubliclyDecryptable (handle_of 80);
   AllowThis (handle_of 30) 4096; PubliclyDecryptable (handle_of 30)].
Proof. vm_compute. reflexivity. Qed.

(** ** The front end: history and bid form *)

Lemma take_snoc_truncated {A} (n : nat) (l h : list A) (x : A) :
  take (S n) (l ++ x :: take n h) = take (S n) (l ++ x :: h).
Proof.
  rewrite !take_app.
  destruct (S n - length l)%nat as [|k] eqn:Hk; [reflexivity|].
  simpl. rewrite take_take. do 3 f_equal. lia.
Qed.

(** X15: the history keeps the ten most recent actions, newest first.
    Starting from a history of at most ten items, after any sequence of
    [addUserHistory] calls the history is the list of the added items in
    reverse order of addition followed by the old items, cut after ten. *)
Theorem history_keeps_last_ten {D : Type} (address : option string)
    (entries : list (string * D * N)) (prev : list (App.HistoryItem D)) :
  (length prev <= 10)%nat ->
  App.additions address entries prev =
  take 10 (rev (map (fun e => App.mkHistoryItem (fst (fst e)) (snd (fst e))
                                (snd e) address) entries) ++ prev).
Proof.
  unfold App.additions. revert prev.
  induction entries as [|e entries IH]; intros prev Hlen; simpl.
  - symmetry. apply take_ge. exact Hlen.
  - rewrite IH.
    + unfold App.addUserHistory. rewrite <- app_assoc. simpl.
      apply (take_snoc_truncated 9).
    + unfold App.addUserHistory. simpl. rewrite length_take. lia.
Qed.

(** Twelve actions on an empty history: the last ten remain, newest first. *)
Lemma history_keeps_last_ten_witness :
  App.additions (Some "0xA1")
    (map (fun n => ("CREATE_BID", n, 1000 + n)) [1; 2; 3; 4; 5; 6; 7; 8; 9; 10; 11; 12])
    [] =
  map (fun n => App.mkHistoryItem "CREATE_BID" n (1000 + n) (Some "0xA1"))
    [12; 11; 10; 9; 8; 7; 6; 5; 4; 3].
Proof.
  rewrite (history_keeps_last_ten (Some "0xA1") _ []); [reflexivity|simpl; lia].
Defined.

Lemma replace_non_digits_digits value :
  App.digits_only (App.replace_non_digits value) = true.
Proof.
  induction value as [|c rest IH]; simpl; [reflexivity|].
  destruct (App.is_digit c) eqn:Hc; simpl; [rewrite Hc|]; exact IH.
Qed.

Lemma replace_non_digits_fixed value :
  App.digits_only value = true -> App.replace_non_digits value = value.
Proof.
  induction value as [|c rest IH]; simpl; [reflexivity|].
  intros H. apply andb_prop in H as [-> H]. rewrite (IH H). reflexivity.
Qed.

Lemma changes_bidAmount events :
  forall d,
    (forall v, d !! "bidAmount" = Some v -> App.digits_only v = true) ->
    forall v, App.changes events d !! "bidAmount" = Some v ->
              App.digits_only v = true.
Proof.
  unfold App.changes.
  induction events as [|[name value] events IH]; intros d Hd; simpl; [exact Hd|].
  apply IH. intros v. unfold App.handleChange.
  destruct (decide (name = "bidAmount")) as [->|Hne].
  - rewrite lookup_insert_eq. intros [= <-]. apply replace_non_digits_digits.
  - rewrite lookup_insert_ne by exact Hne. apply Hd.
Qed.

(** X16: only digits reach the bid amount.  Starting from the initial form,
    after any sequence of change events the [bidAmount] field holds a string
    of decimal digits; and whenever the submit button is enabled, nothing is
    being created or encrypted, the name is a non-empty string and the bid
    amount is a non-empty string of digits. *)
Theorem submit_enabled_bid_is_number (events : list (string * string))
    (creating isEncrypting : bool) :
  App.submit_disabled creating isEncrypting
    (App.changes events App.newAuctionData) = false ->
  creating = false /\ isEncrypting = false /\
  (exists n, App.changes events App.newAuctionData !! "name" = Some n /\
             n <> ""%string) /\
  (exists v, App.changes events App.newAuctionData !! "bidAmount" = Some v /\
             v <> ""%string /\ App.digits_only v = true /\
             App.replace_non_digits v = v).
Proof.
  unfold App.submit_disabled. intros H.
  apply orb_false_elim in H as [H Hbid].
  apply orb_false_elim in H as [H Hname].
  apply orb_false_elim in H as [-> ->].
  split; [reflexivity|]. split; [reflexivity|]. split.
  - destruct (App.changes events App.newAuctionData !! "name") as [[|c n]|];
      try discriminate.
    eexists. split; [reflexivity|discriminate].
  - pose proof (changes_bidAmount events App.newAuctionData) as Hdig.
    destruct (App.changes events App.newAuctionData !! "bidAmount")
      as [[|c v]|]; try discriminate.
    assert (Hd : App.digits_only (String c v) = true).
    { apply Hdig; [|reflexivity].
      intros v0 Hv0. vm_compute in Hv0. injection Hv0 as <-. reflexivity. }
    eexists. split; [reflexivity|]. split; [discriminate|].
    split; [exact Hd|]. apply replace_non_digits_fixed, Hd.
Qed.

(** Typing a name and "1a2 5" as amount stores "125" and enables the
    button. *)
Lemma submit_enabled_bid_is_number_witness :
  exists v,
    App.changes [("name", "vase"); ("bidAmount", "1a2 5")] App.newAuctionData
      !! "bidAmount" = Some v /\
    v <> ""%string /\ App.digits_only v = true /\ App.replace_non_digits v = v.
Proof.
  refine (proj2 (proj2 (proj2 (submit_enabled_bid_is_number
    [("name", "vase"); ("bidAmount", "1a2 5")]%string false false _)))).
  vm_compute. reflexivity.
Defined.

Example form_strips_non_digits :
  App.changes [("name", "vase"); ("bidAmount", "1a2 5")]%string App.newAuctionData
    !! "bidAmount" = Some "125"%string.
Proof. vm_compute. reflexivity. Qed.

(** ** Error order of [concludeAuction] and the queries *)

(** X17: [concludeAuction] checks in the order of its body.  It fails with
    "Auction does not exist" on an unregistered id; otherwise with "Auction
    is still active" while now <= end; otherwise with "Auction already
    concluded" when the auction is inactive; otherwise inside
    [FHE.checkSignatures] when the proof is rejected for the stored handle;
    otherwise in [abi.decode] when the clear bytes are malformed.  Every
    failure leaves the storage unchanged, and in the remaining case the call
    succeeds. *)
Theorem concludeAuction_guards (fhe : FHE) (env : Env) (id : string)
    (clear prf : bytes) (s : Storage) :
  let r := transact fhe env (ConcludeAuction id clear prf) s in
  let a := auction_at s id in
  let accepted := checkSignatures fhe [toBytes32 fhe (highestBid a)] clear prf in
  (exists_at s id = false -> r = (s, Failed NotFound)) /\
  (exists_at s id = true -> block_timestamp env <= endTime a ->
     r = (s, Failed StillActive)) /\
  (exists_at s id = true -> endTime a < block_timestamp env ->
     isActive a = false -> r = (s, Failed AlreadyConcluded)) /\
  (exists_at s id = true -> endTime a < block_timestamp env ->
     isActive a = true -> accepted = false -> r = (s, Failed InvalidProof)) /\
  (exists_at s id = true -> endTime a < block_timestamp env ->
     isActive a = true -> accepted = true -> abi_decode_uint32 clear = None ->
     r = (s, Failed DecodeFailure)) /\
  (forall v, exists_at s id = true -> endTime a < block_timestamp env ->
     isActive a = true -> accepted = true -> abi_decode_uint32 clear = Some v ->
     r = (concluded id s, Success [AuctionConcluded id (highestBidder a) v])).
Proof.
  simpl. rewrite transact_concludeAuction.
  split; [intros ->; reflexivity|].
  split.
  { intros -> Hle. simpl.
    replace (endTime (auction_at s id) <? block_timestamp env) with false
      by (symmetry; apply N.ltb_ge; lia).
    reflexivity. }
  assert (Hpast : endTime (auction_at s id) < block_timestamp env ->
                  (endTime (auction_at s id) <? block_timestamp env) = true)
    by (intros H; apply N.ltb_lt, H).
  repeat split.
  - intros -> Hen ->. rewrite (Hpast Hen). reflexivity.
  - intros -> Hen -> ->. rewrite (Hpast Hen). reflexivity.
  - intros -> Hen -> -> ->. rewrite (Hpast Hen). reflexivity.
  - intros v -> Hen -> -> ->. rewrite (Hpast Hen). reflexivity.
Qed.

(** X18: what the queries answer.  In a reachable state all four queries
    revert with "Auction does not exist" on an unregistered id.  On a
    registered id [getAuctionDetails] returns the queried id as name and a
    start time that is not after the end time, and when [getBidCount] is 0
    the reported highest bidder is the zero address and [getHighestBid] is
    the encrypted-zero handle. *)
Theorem queries_on_reachable (fhe : FHE) (id : string) (s : Storage) :
  reachable fhe s ->
  (exists_at s id = false ->
     view (getHighestBid id) s = inl NotFound /\
     view (getAuctionDetails id) s = inl NotFound /\
     view (getBidCount id) s = inl NotFound /\
     forall index, view (getBid id index) s = inl NotFound) /\
  (exists_at s id = true ->
     exists start stop winner active count,
       view (getAuctionDetails id) s = inr (id, start, stop, winner, active) /\
       start <= stop /\
       view (getBidCount id) s = inr count /\
       (count = 0 ->
          winner = address0 /\ view (getHighestBid id) s = inr (zero fhe 16))).
Proof.
  intros Hreach.
  rewrite view_getHighestBid, view_getAuctionDetails, view_getBidCount.
  split; intros Hex; rewrite Hex.
  - repeat split. intros index. rewrite view_getBid, Hex. reflexivity.
  - destruct (reachable_consistent _ _ Hreach id) as [_ Hold].
    destruct (Hold Hex) as [_ Hwin].
    rewrite (registered_name fhe s id Hreach Hex).
    do 5 eexists. split; [reflexivity|]. split; [exact Hwin|].
    split; [reflexivity|]. intros Hcount.
    assert (Hnil : bids_at s id = []).
    { destruct (bids_at s id); [reflexivity|simpl in Hcount; lia]. }
    destruct (no_bids_initial_pair fhe s id Hreach Hex Hnil) as [-> ->].
    auto.
Qed.

Lemma queries_on_reachable_witness :
  exists start stop winner active count,
    view (getAuctionDetails "nft-1") (run (host low32) opening empty_storage)
      = inr ("nft-1", start, stop, winner, active) /\
    start <= stop /\
    view (getBidCount "nft-1") (run (host low32) opening empty_storage)
      = inr count /\
    (count = 0 ->
       winner = address0 /\
       view (getHighestBid "nft-1") (run (host low32) opening empty_storage)
         = inr (zero (host low32) 16)).
Proof.
  refine (proj2 (queries_on_reachable (host low32) "nft-1"
                   (run (host low32) opening empty_storage) _) _).
  - exists opening. reflexivity.
  - vm_compute. reflexivity.
Defined.
